(** * Generic data-access layer: query helpers and base repository

    A shallow embedding of
    - [backend/domain/shared/query_helpers.py]
      ([LocaleFieldSelector], [SearchPatternBuilder], [QueryFilterBuilder]) and
    - [backend/domain/shared/base_repository.py] ([BaseRepository]),
    together with the part of the SQL expression language, the statement
    builder and the session that these two files drive. *)

From stdpp Require Import gmap strings list fin_maps sorting.
From Stdlib Require Import QArith.

Close Scope Q_scope.

Open Scope string_scope.
Open Scope list_scope.

(** ** Python values *)

(** A Python [str] is a sequence of Unicode code points; [len] counts code
    points, so text is a list of code points rather than a byte string. *)
Abbreviation pystr := (list N).

(** Code points of an ASCII literal, for readable examples. *)
Fixpoint text (s : string) : pystr :=
  match s with
  | EmptyString => []
  | String c s' => Ascii.N_of_ascii c :: text s'
  end.

(** [str.isspace] on one code point (the characters [str.strip()] removes). *)
Definition isspace (c : N) : bool :=
  ((9 <=? c) && (c <=? 13) || (28 <=? c) && (c <=? 32)
   || (c =? 133) || (c =? 160) || (c =? 5760)
   || (8192 <=? c) && (c <=? 8202)
   || (c =? 8232) || (c =? 8233) || (c =? 8239) || (c =? 8287)
   || (c =? 12288))%N.

Fixpoint lstrip (s : pystr) : pystr :=
  match s with
  | [] => []
  | c :: s' => if isspace c then lstrip s' else s
  end.

Definition rstrip (s : pystr) : pystr := rev (lstrip (rev s)).

(** [s.strip()] *)
Definition strip (s : pystr) : pystr := rstrip (lstrip s).

(** Values that live in a column or are passed as a filter value. *)
Inductive scalar :=
| SNull                      (* None / SQL NULL *)
| SBool (b : bool)
| SInt (z : Z)
| SText (s : pystr)
| SReal (q : Q)
| STime (t : N).             (* datetime, as a clock reading *)

#[global] Instance Q_eq_dec : EqDecision Q.
Proof. solve_decision. Defined.
#[global] Instance scalar_eq_dec : EqDecision scalar.
Proof. solve_decision. Defined.

(** Exceptions the two files can meet.  [SQLAlchemyError] is the base class
    that the repository's [except] clauses name; its subclasses are listed by
    kind. *)
Inductive sa_kind :=
| IntegrityError
| MultipleResultsFound
| NoResultFound
| InvalidRequestError
| ProgrammingError
| OperationalError.

Inductive exn :=
| ValueError (msg : string)
| AttributeError (msg : string)
| SQLAlchemyError (kind : sa_kind).

#[global] Instance sa_kind_eq_dec : EqDecision sa_kind.
Proof. solve_decision. Defined.
#[global] Instance exn_eq_dec : EqDecision exn.
Proof. solve_decision. Defined.

Inductive result (A : Type) :=
| Ok (a : A)
| Raise (e : exn).
Arguments Ok {A} a.
Arguments Raise {A} e.

(** ** Column expressions ([sqlalchemy.ColumnElement]) *)

Inductive ColumnElement :=
| Column (table name : string)
| Literal (v : scalar)
| is_null (c : ColumnElement)            (* c.is_(None) *)
| isnot_null (c : ColumnElement)         (* c.isnot(None) *)
| is_false (c : ColumnElement)           (* c.is_(False) *)
| and_ (a b : ColumnElement)             (* a & b *)
| or_ (a b : ColumnElement)
| ilike (c : ColumnElement) (pattern : pystr)
| similarity (c : ColumnElement) (q : pystr)   (* func.similarity(c, q) *)
| gt (a b : ColumnElement)
| eq_ (a b : ColumnElement)
| ne_ (a b : ColumnElement)
| in_ (c : ColumnElement) (vs : list scalar)
| desc (c : ColumnElement).

#[global] Instance ColumnElement_eq_dec : EqDecision ColumnElement.
Proof. solve_decision. Defined.

(** [column == value]: comparing with [None] renders [IS NULL]. *)
Definition col_eq (c : ColumnElement) (v : scalar) : ColumnElement :=
  match v with
  | SNull => is_null c
  | _ => eq_ c (Literal v)
  end.

(** [column != value]: comparing with [None] renders [IS NOT NULL]. *)
Definition col_ne (c : ColumnElement) (v : scalar) : ColumnElement :=
  match v with
  | SNull => isnot_null c
  | _ => ne_ c (Literal v)
  end.

(** A row is the attribute dictionary of one entity. *)
Abbreviation Row := (gmap string scalar).

(** The rows in scope while a predicate is evaluated, by table name. *)
Abbreviation Env := (list (string * Row)).

Fixpoint env_lookup (env : Env) (table : string) : option Row :=
  match env with
  | [] => None
  | (t, r) :: env' => if decide (t = table) then Some r else env_lookup env' table
  end.

(** Three-valued connectives; [SNull] is "unknown". *)
Definition and3 (a b : scalar) : scalar :=
  match a, b with
  | SBool false, _ | _, SBool false => SBool false
  | SBool true, SBool true => SBool true
  | _, _ => SNull
  end.

Definition or3 (a b : scalar) : scalar :=
  match a, b with
  | SBool true, _ | _, SBool true => SBool true
  | SBool false, SBool false => SBool false
  | _, _ => SNull
  end.

Definition not3 (a : scalar) : scalar :=
  match a with
  | SBool b => SBool (negb b)
  | _ => SNull
  end.

Definition eq3 (a b : scalar) : scalar :=
  match a, b with
  | SNull, _ | _, SNull => SNull
  | SReal x, SReal y => SBool (Qeq_bool x y)
  | _, _ => SBool (bool_decide (a = b))
  end.

Definition gt3 (a b : scalar) : scalar :=
  match a, b with
  | SReal x, SReal y => SBool (negb (Qle_bool x y))
  | SInt x, SInt y => SBool (y <? x)%Z
  | STime x, STime y => SBool (y <? x)%N
  | _, _ => SNull
  end.

Section Engine.
(** The two text operators are the database's (PostgreSQL's [ILIKE] and
    [pg_trgm]'s [similarity]); the development is parametric in them. *)
Variable ilike_match : pystr -> pystr -> bool.   (* text, pattern *)
Variable trgm_similarity : pystr -> pystr -> Q.

Fixpoint eval (env : Env) (e : ColumnElement) : scalar :=
  match e with
  | Column t n =>
      match env_lookup env t with
      | Some r => default SNull (r !! n)
      | None => SNull
      end
  | Literal v => v
  | is_null c => SBool (bool_decide (eval env c = SNull))
  | isnot_null c => SBool (negb (bool_decide (eval env c = SNull)))
  | is_false c => SBool (bool_decide (eval env c = SBool false))
  | and_ a b => and3 (eval env a) (eval env b)
  | or_ a b => or3 (eval env a) (eval env b)
  | ilike c p =>
      match eval env c with
      | SText t => SBool (ilike_match t p)
      | _ => SNull
      end
  | similarity c q =>
      match eval env c with
      | SText t => SReal (trgm_similarity t q)
      | _ => SNull
      end
  | gt a b => gt3 (eval env a) (eval env b)
  | eq_ a b => eq3 (eval env a) (eval env b)
  | ne_ a b => not3 (eq3 (eval env a) (eval env b))
  | in_ c vs => foldr (fun v acc => or3 (eq3 (eval env c) v) acc) (SBool false) vs
  | desc c => eval env c
  end.

(** A [WHERE] criterion keeps a row only when it evaluates to true. *)
Definition holds (env : Env) (e : ColumnElement) : bool :=
  bool_decide (eval env e = SBool true).
End Engine.

(** ** Model descriptions ([type[SQLModel]]) *)

Record Model := {
  __name__ : string;
  __tablename__ : string;
  attrs : list string;                        (* the mapped attributes in dir(model) *)
  field_default : gmap string scalar;         (* Field(default=...) *)
  field_factory : gmap string (N -> scalar);  (* Field(default_factory=...) *)
}.

Definition hasattr (m : Model) (name : string) : bool :=
  bool_decide (name ∈ attrs m).

(** The mapped attribute [model.name] of a model that has it. *)
Definition attr (m : Model) (name : string) : ColumnElement :=
  Column (__tablename__ m) name.

#[global] Instance result_ret : MRet result := fun A a => Ok a.

#[global] Instance result_bind : MBind result := fun A B k r =>
  match r with
  | Ok a => k a
  | Raise e => Raise e
  end.

(** [getattr(model, name)]: the mapped attribute, or [AttributeError]. *)
Definition getattr (m : Model) (name : string) : result ColumnElement :=
  if hasattr m name then Ok (attr m name)
  else Raise (AttributeError
    ("type object '" +:+ __name__ m +:+ "' has no attribute '" +:+ name +:+ "'")).

(** ** [LocaleFieldSelector] *)

Inductive LocaleCode := ko | en.

Definition locale_str (l : LocaleCode) : string :=
  match l with ko => "ko" | en => "en" end.

Module LocaleFieldSelector.

Definition get_field_name (field_prefix : string) (locale : LocaleCode) : string :=
  field_prefix +:+ "_" +:+ locale_str locale.

Definition select_field (model : Model) (field_prefix : string)
    (locale : LocaleCode) : result ColumnElement :=
  let field_name := field_prefix +:+ "_" +:+ locale_str locale in
  if negb (hasattr model field_name) then
    Raise (ValueError
      ("Model " +:+ __name__ model +:+ " does not have field '" +:+ field_name
       +:+ "'. " +:+ "Available fields: " +:+ String.concat ", " (attrs model)))
  else
    Ok (attr model field_name).

(** The dict comprehension: prefixes are resolved left to right and the
    first failure propagates. *)
Fixpoint select_multiple_fields (model : Model) (field_prefixes : list string)
    (locale : LocaleCode) : result (list (string * ColumnElement)) :=
  match field_prefixes with
  | [] => Ok []
  | prefix :: rest =>
      match select_field model prefix locale with
      | Raise e => Raise e
      | Ok c =>
          match select_multiple_fields model rest locale with
          | Raise e => Raise e
          | Ok d => Ok ((prefix, c) :: d)
          end
      end
  end.

End LocaleFieldSelector.

(** ** [SearchPatternBuilder] *)

Module SearchPatternBuilder.

Definition SHORT_QUERY_THRESHOLD : nat := 2.
Definition SIMILARITY_THRESHOLD : Q := (1 # 10)%Q.

(** f"%{query}%" *)
Definition contains_pattern (query : pystr) : pystr :=
  text "%" ++ query ++ text "%".

Definition build_search_condition (column : ColumnElement) (query : pystr)
    (use_trigram_similarity : bool) : ColumnElement :=
  let query := strip query in
  match query with
  | [] => and_ (is_null column) (isnot_null column)
  | _ =>
      if (length query <=? SHORT_QUERY_THRESHOLD)%nat then
        ilike column (contains_pattern query)
      else if use_trigram_similarity then
        or_ (ilike column (contains_pattern query))
            (gt (similarity column query) (Literal (SReal SIMILARITY_THRESHOLD)))
      else
        ilike column (contains_pattern query)
  end.

Definition build_order_by (column : ColumnElement) (query : pystr) : ColumnElement :=
  let query := strip query in
  if (length query <=? SHORT_QUERY_THRESHOLD)%nat then column
  else desc (similarity column query).

Definition is_short_query (query : pystr) : bool :=
  (length (strip query) <=? SHORT_QUERY_THRESHOLD)%nat.

End SearchPatternBuilder.

(** ** Select statements ([sqlalchemy.Select]) *)

(** Every builder method is generative: it returns a copy of the statement
    with one more element appended; none of them inspects what is already
    there. *)
Record Select := {
  from_table : string;
  setup_joins : list (string * ColumnElement);   (* target table, ON clause *)
  where_criteria : list ColumnElement;
  order_by_clauses : list ColumnElement;
  offset_clause : option nat;
  limit_clause : option nat;
}.

#[global] Instance Select_eq_dec : EqDecision Select.
Proof. solve_decision. Defined.

(** [select(model)], and also [select(func.count()).select_from(model)]: the
    two differ in the call that runs them ([session_execute] or
    [session_execute_count]). *)
Definition select (m : Model) : Select :=
  {| from_table := __tablename__ m; setup_joins := []; where_criteria := [];
     order_by_clauses := []; offset_clause := None; limit_clause := None |}.

Module Stmt.

Definition join (s : Select) (target : Model) (onclause : ColumnElement) : Select :=
  {| from_table := from_table s;
     setup_joins := setup_joins s ++ [(__tablename__ target, onclause)];
     where_criteria := where_criteria s;
     order_by_clauses := order_by_clauses s;
     offset_clause := offset_clause s; limit_clause := limit_clause s |}.

Definition where_ (s : Select) (criteria : list ColumnElement) : Select :=
  {| from_table := from_table s; setup_joins := setup_joins s;
     where_criteria := where_criteria s ++ criteria;
     order_by_clauses := order_by_clauses s;
     offset_clause := offset_clause s; limit_clause := limit_clause s |}.

Definition order_by (s : Select) (clause : ColumnElement) : Select :=
  {| from_table := from_table s; setup_joins := setup_joins s;
     where_criteria := where_criteria s;
     order_by_clauses := order_by_clauses s ++ [clause];
     offset_clause := offset_clause s; limit_clause := limit_clause s |}.

Definition offset (s : Select) (n : nat) : Select :=
  {| from_table := from_table s; setup_joins := setup_joins s;
     where_criteria := where_criteria s;
     order_by_clauses := order_by_clauses s;
     offset_clause := Some n; limit_clause := limit_clause s |}.

Definition limit (s : Select) (n : nat) : Select :=
  {| from_table := from_table s; setup_joins := setup_joins s;
     where_criteria := where_criteria s;
     order_by_clauses := order_by_clauses s;
     offset_clause := offset_clause s; limit_clause := Some n |}.

End Stmt.

(** ** The models at hand *)

(** The token of a generated identifier ([ULID()]), written in binary; a
    default factory is a function of the reading of the clock at which the
    entity is constructed, and no two readings are equal. *)
Fixpoint pos_digits (p : positive) : pystr :=
  match p with
  | xH => [49%N]
  | xO p' => pos_digits p' ++ [48%N]
  | xI p' => pos_digits p' ++ [49%N]
  end.

Definition ulid (t : N) : pystr :=
  match t with
  | N0 => [48%N]
  | Npos p => pos_digits p
  end.

(** [backend.domain.user.model.User]; the columns declared on the class. *)
Definition User : Model :=
  {| __name__ := "User"; __tablename__ := "user";
     attrs := ["id"; "firebase_id"; "auth_type"; "auth_provider_id"; "email";
               "phone"; "name"; "gender"; "birth_year"; "status"; "is_admin";
               "created_at"; "updated_at"; "deleted_at"];
     field_default :=
       {[ "firebase_id" := SNull; "auth_type" := SText (text "phone");
          "auth_provider_id" := SNull; "email" := SNull; "phone" := SNull;
          "name" := SNull; "gender" := SNull; "birth_year" := SNull;
          "status" := SText (text "draft"); "is_admin" := SBool false;
          "deleted_at" := SNull ]};
     field_factory :=
       {[ "id" := fun t => SText (text "usr_" ++ ulid t);
          "created_at" := STime; "updated_at" := STime ]} |}.

(** A model in the style of the docstrings' [Artist]: localized names, an
    owner and a visibility flag. *)
Definition Artist : Model :=
  {| __name__ := "Artist"; __tablename__ := "artist";
     attrs := ["id"; "is_visible"; "name_en"; "name_ko"; "updated_at"; "user_id"];
     field_default := {[ "is_visible" := SBool true ]};
     field_factory := {[ "updated_at" := STime ]} |}.

(** ** [QueryFilterBuilder] *)

Module QueryFilterBuilder.

Definition add_visibility_filters (statement : Select)
    (model_with_visibility : Model) : result Select :=
  match getattr model_with_visibility "user_id" with
  | Raise e => Raise e
  | Ok user_id =>
      let statement := Stmt.join statement User (eq_ user_id (Column "user" "id")) in
      match getattr model_with_visibility "is_visible" with
      | Raise e => Raise e
      | Ok is_visible =>
          Ok (Stmt.where_ statement [is_false (Column "user" "is_admin"); is_visible])
      end
  end.

(** [exclude_id] is an [Optional[str]]; [None] and the empty string are falsy. *)
Definition add_exclude_id_filter (statement : Select) (model : Model)
    (exclude_id : option pystr) : result Select :=
  match exclude_id with
  | Some (c :: q) =>
      match getattr model "id" with
      | Raise e => Raise e
      | Ok id => Ok (Stmt.where_ statement [col_ne id (SText (c :: q))])
      end
  | _ => Ok statement
  end.


End QueryFilterBuilder.

(** ** Running a statement *)

(** The rows of each table, listed in the order in which the database scans
    them.  SQL leaves that order open: two queries over the same rows may
    meet them in different orders. *)
Abbreviation Database := (gmap string (list Row)).

Definition table_rows (db : Database) (t : string) : list Row :=
  default [] (db !! t).

(** [ORDER BY] compares values of one type; [NULL] sorts after every value
    in ascending order, and text is compared code point by code point. *)
Fixpoint text_cmp (a b : pystr) : comparison :=
  match a, b with
  | [], [] => Eq
  | [], _ :: _ => Lt
  | _ :: _, [] => Gt
  | x :: a', y :: b' =>
      match (x ?= y)%N with
      | Eq => text_cmp a' b'
      | c => c
      end
  end.

Definition rank (v : scalar) : nat :=
  match v with
  | SBool _ => 0 | SInt _ => 1 | SReal _ => 2 | SText _ => 3 | STime _ => 4
  | SNull => 5
  end.

Definition scalar_cmp (a b : scalar) : comparison :=
  match a, b with
  | SBool x, SBool y => Bool.compare x y
  | SInt x, SInt y => (x ?= y)%Z
  | SReal x, SReal y => (x ?= y)%Q
  | SText x, SText y => text_cmp x y
  | STime x, STime y => (x ?= y)%N
  | _, _ => Nat.compare (rank a) (rank b)
  end.

(** Stable insertion sort: [x] goes before the first element that is not
    smaller. *)
Fixpoint insert_sorted {A} (cmp : A -> A -> comparison) (x : A) (l : list A) : list A :=
  match l with
  | [] => [x]
  | y :: l' =>
      match cmp x y with
      | Gt => y :: insert_sorted cmp x l'
      | _ => x :: l
      end
  end.

Definition sort_by {A} (cmp : A -> A -> comparison) (l : list A) : list A :=
  foldr (insert_sorted cmp) [] l.

(** [OFFSET] is applied before [LIMIT]. *)
Definition window {A} (off lim : option nat) (l : list A) : list A :=
  let l := drop (default 0 off) l in
  match lim with
  | Some n => take n l
  | None => l
  end.

Section Execution.
Variable ilike_match : pystr -> pystr -> bool.
Variable trgm_similarity : pystr -> pystr -> Q.

Definition clause_cmp (c : ColumnElement) (e1 e2 : Env) : comparison :=
  match c with
  | desc c' =>
      scalar_cmp (eval ilike_match trgm_similarity e2 c')
                 (eval ilike_match trgm_similarity e1 c')
  | _ =>
      scalar_cmp (eval ilike_match trgm_similarity e1 c)
                 (eval ilike_match trgm_similarity e2 c)
  end.

Fixpoint order_cmp (cs : list ColumnElement) (e1 e2 : Env) : comparison :=
  match cs with
  | [] => Eq
  | c :: cs' =>
      match clause_cmp c e1 e2 with
      | Eq => order_cmp cs' e1 e2
      | r => r
      end
  end.

(** One [JOIN target ON onclause]: a nested loop over the target table. *)
Definition join_rows (db : Database) (envs : list Env)
    (j : string * ColumnElement) : list Env :=
  envs ≫= (fun env =>
    (fun r => (j.1, r) :: env) <$>
      List.filter (fun r => holds ilike_match trgm_similarity ((j.1, r) :: env) j.2)
                  (table_rows db j.1)).

(** The rows that survive [FROM], the [JOIN]s and [WHERE].  A table listed
    twice in the [FROM] list without an alias is rejected by the database. *)
Definition matching (db : Database) (s : Select) : result (list Env) :=
  if bool_decide (NoDup (from_table s :: (setup_joins s).*1)) then
    let envs := (fun r => [(from_table s, r)]) <$> table_rows db (from_table s) in
    let joined := foldl (join_rows db) envs (setup_joins s) in
    Ok (List.filter
          (fun env => forallb (holds ilike_match trgm_similarity env) (where_criteria s))
          joined)
  else Raise (SQLAlchemyError ProgrammingError).

(** [select(model)...]: entities of the [FROM] table, ordered and windowed.
    Rows that tie on every [ORDER BY] clause come out in scan order. *)
Definition run_select (db : Database) (s : Select) : result (list Row) :=
  match matching db s with
  | Raise e => Raise e
  | Ok kept =>
      let sorted := sort_by (order_cmp (order_by_clauses s)) kept in
      Ok (omap (fun env => env_lookup env (from_table s))
               (window (offset_clause s) (limit_clause s) sorted))
  end.

(** [select(func.count())...]: one row holding the number of matching rows;
    the window applies to that one row. *)
Definition run_count (db : Database) (s : Select) : result (list Z) :=
  match matching db s with
  | Raise e => Raise e
  | Ok kept =>
      Ok (window (offset_clause s) (limit_clause s) [Z.of_nat (length kept)])
  end.

(** For a statement over one table: the rows of the [FROM] table that pass
    every criterion, and the order in which two of them come out. *)
Definition rows_matching (db : Database) (s : Select) : list Row :=
  List.filter
    (fun r => forallb (holds ilike_match trgm_similarity [(from_table s, r)])
                      (where_criteria s))
    (table_rows db (from_table s)).

Definition row_cmp (s : Select) (r1 r2 : Row) : comparison :=
  order_cmp (order_by_clauses s) [(from_table s, r1)] [(from_table s, r2)].

End Execution.

(** ** The session ([AsyncSession]) *)

(** [committed] is what the database holds; [working] is what the open
    transaction sees (the committed rows plus the session's unit of work).
    [schema] lists the unique columns of each table.  Every awaited call is
    one round trip to the database, and [faults] is the outcome of the
    upcoming round trips: [Some k] makes the call raise the
    [SQLAlchemyError] of kind [k]. *)
Record Session := {
  schema : gmap string (list string);
  committed : Database;
  working : Database;
  faults : list (option sa_kind);
  clock : N;
}.

Definition set_working (w : Database) (s : Session) : Session :=
  {| schema := schema s; committed := committed s; working := w;
     faults := faults s; clock := clock s |}.

Definition set_faults (fs : list (option sa_kind)) (s : Session) : Session :=
  {| schema := schema s; committed := committed s; working := working s;
     faults := fs; clock := clock s |}.

(** Code that runs against a session and may raise. *)
Definition M (A : Type) : Type := Session -> result A * Session.

#[global] Instance M_ret : MRet M := fun A a s => (Ok a, s).

#[global] Instance M_bind : MBind M := fun A B k m s =>
  match m s with
  | (Ok a, s') => k a s'
  | (Raise e, s') => (Raise e, s')
  end.

Definition raise {A} (e : exn) : M A := fun s => (Raise e, s).

Definition lift {A} (r : result A) : M A := fun s => (r, s).

(** [try: body except SQLAlchemyError as e: handler e]; any other exception
    passes through. *)
Definition try_except {A} (body : M A) (handler : sa_kind -> M A) : M A :=
  fun s =>
    match body s with
    | (Raise (SQLAlchemyError k), s') => handler k s'
    | r => r
    end.

(** Reading and changing the session. *)
Definition gets {A} (f : Session -> A) : M A := fun s => (Ok (f s), s).

Definition modify (f : Session -> Session) : M unit := fun s => (Ok (), f s).

(** One round trip to the database: it consumes the next planned outcome;
    when none is planned the call succeeds. *)
Definition round_trip : M unit := fun s =>
  match faults s with
  | [] => (Ok (), s)
  | None :: fs => (Ok (), set_faults fs s)
  | Some k :: fs => (Raise (SQLAlchemyError k), set_faults fs s)
  end.

(** [datetime.now(UTC)].  The clock moves with every reading, so no two
    readings are equal; the default factories of a model read it too. *)
Definition now : M N := fun s =>
  (Ok (clock s),
   {| schema := schema s; committed := committed s; working := working s;
      faults := faults s; clock := N.succ (clock s) |}).

(** The repository addresses entities by the primary key [id]. *)
Definition pk : string := "id".

Definition identity (r : Row) : scalar := default SNull (r !! pk).

Definition column_values (c : string) (rows : list Row) : list scalar :=
  List.filter (fun v => negb (bool_decide (v = SNull)))
              ((fun r : Row => default SNull (r !! c)) <$> rows).

(** The uniqueness constraints checked when a transaction is flushed. *)
Definition consistent (sch : gmap string (list string)) (db : Database) : Prop :=
  map_Forall (fun t cols =>
    Forall (fun c => NoDup (column_values c (table_rows db t))) cols) sch.

#[global] Instance consistent_dec sch db : Decision (consistent sch db).
Proof. unfold consistent. apply _. Defined.

(** The instance states the repository meets: [transient] for an object just
    constructed, [persistent] for one loaded under the given identity. *)
Inductive InstanceState :=
| transient
| persistent (key : scalar).

Definition write_back (key : scalar) (entity : Row) (rows : list Row) : list Row :=
  (fun r => if decide (identity r = key) then entity else r) <$> rows.

Definition set_table (t : string) (rows : list Row) (s : Session) : Session :=
  set_working (<[t := rows]> (working s)) s.

(** [session.add(entity)]: a new object becomes a pending insert; for a
    loaded one the attribute changes made on it are part of the unit of
    work, under the identity it was loaded with. *)
Definition session_add (m : Model) (st : InstanceState) (entity : Row) : M unit :=
  modify (fun s =>
    let rows := table_rows (working s) (__tablename__ m) in
    set_table (__tablename__ m)
      match st with
      | transient => rows ++ [entity]
      | persistent key => write_back key entity rows
      end s).

Definition remove_row (key : scalar) (rows : list Row) : list Row :=
  List.filter (fun r => negb (bool_decide (identity r = key))) rows.

(** [await session.delete(entity)] *)
Definition session_delete (m : Model) (entity : Row) : M unit :=
  round_trip ;;
  modify (fun s =>
    set_table (__tablename__ m)
      (remove_row (identity entity) (table_rows (working s) (__tablename__ m))) s).

(** [await session.commit()]: flushes, which is where a constraint
    violation surfaces, then makes the unit of work durable. *)
Definition session_commit : M unit :=
  round_trip ;;
  ok ← gets (fun s => bool_decide (consistent (schema s) (working s)));
  if ok : bool then
    modify (fun s =>
      {| schema := schema s; committed := working s; working := working s;
         faults := faults s; clock := clock s |})
  else raise (SQLAlchemyError IntegrityError).

(** [await session.rollback()]: discards the unit of work.  It is taken to
    succeed. *)
Definition session_rollback : M unit :=
  modify (fun s => set_working (committed s) s).

(** [await session.refresh(entity)]: reloads the row by primary key. *)
Definition session_refresh (m : Model) (entity : Row) : M Row :=
  round_trip ;;
  found ← gets (fun s =>
    List.find (fun r => bool_decide (identity r = identity entity))
              (table_rows (working s) (__tablename__ m)));
  match found with
  | Some r => mret r
  | None => raise (SQLAlchemyError InvalidRequestError)
  end.

(** [result.scalar_one_or_none()] *)
Definition scalar_one_or_none {A} (rows : list A) : result (option A) :=
  match rows with
  | [] => Ok None
  | [x] => Ok (Some x)
  | _ => Raise (SQLAlchemyError MultipleResultsFound)
  end.

(** [result.scalar_one()] *)
Definition scalar_one {A} (rows : list A) : result A :=
  match rows with
  | [] => Raise (SQLAlchemyError NoResultFound)
  | [x] => Ok x
  | _ => Raise (SQLAlchemyError MultipleResultsFound)
  end.

(** [setattr(entity, key, value)] for each supplied key the model has. *)
Definition setattrs (m : Model) (kwargs : list (string * scalar)) (entity : Row) : Row :=
  foldl (fun e kv => if hasattr m kv.1 then <[kv.1 := kv.2]> e else e) entity kwargs.

(** Constructing an entity from keyword arguments at clock reading [t]: a
    declared field takes the supplied value, else what its default factory
    makes, else its default; other keys are dropped. *)
Definition construct (m : Model) (kwargs : list (string * scalar)) (t : N) : Row :=
  setattrs m kwargs
    (((fun factory => factory t) <$> field_factory m) ∪ field_default m).

(** [await session.run_sync(f)] *)
Definition session_run_sync {A} (f : M A) : M A := round_trip ;; f.

(** [session.bulk_update_mappings(mapper, updates)]: each mapping updates
    the row whose primary key it carries; a mapping without the primary key
    is rejected. *)
Definition apply_mapping (m : Model) (rows : list Row)
    (mapping : list (string * scalar)) : list Row :=
  match List.find (fun kv => bool_decide (kv.1 = pk)) mapping with
  | Some kv =>
      (fun r => if decide (identity r = kv.2) then setattrs m mapping r else r) <$> rows
  | None => rows
  end.

Definition bulk_update_mappings (m : Model)
    (updates : list (list (string * scalar))) : M unit :=
  if forallb (fun u => existsb (fun kv => bool_decide (kv.1 = pk)) u) updates then
    modify (fun s =>
      set_table (__tablename__ m)
        (foldl (apply_mapping m) (table_rows (working s) (__tablename__ m)) updates) s)
  else raise (SQLAlchemyError InvalidRequestError).

Section Session.
Variable ilike_match : pystr -> pystr -> bool.
Variable trgm_similarity : pystr -> pystr -> Q.

(** [await session.execute(statement)] for an entity select. *)
Definition session_execute (statement : Select) : M (list Row) :=
  round_trip ;;
  db ← gets working;
  lift (run_select ilike_match trgm_similarity db statement).

(** [await session.execute(statement)] for a [count()] select. *)
Definition session_execute_count (statement : Select) : M (list Z) :=
  round_trip ;;
  db ← gets working;
  lift (run_count ilike_match trgm_similarity db statement).

End Session.

(** ** [BaseRepository] *)

(** A filter value: a plain value, or a list (rendered as [IN]). *)
Inductive pyval :=
| PyScalar (v : scalar)
| PyList (vs : list scalar).

Module BaseRepository.
Section Repository.
Variable ilike_match : pystr -> pystr -> bool.
Variable trgm_similarity : pystr -> pystr -> Q.

Definition execute := session_execute ilike_match trgm_similarity.
Definition execute_count := session_execute_count ilike_match trgm_similarity.

(** The loop [for field, value in kwargs.items(): if hasattr(model, field):
    statement = statement.where(getattr(model, field) == value)]. *)
Definition where_equal (model : Model) (statement : Select)
    (kwargs : list (string * scalar)) : Select :=
  foldl (fun st kv =>
           if hasattr model kv.1 then Stmt.where_ st [col_eq (attr model kv.1) kv.2]
           else st)
        statement kwargs.

Definition get_async (model : Model) (id : scalar) : M (option Row) :=
  try_except
    (id_column ← lift (getattr model "id");
     let statement := Stmt.where_ (select model) [col_eq id_column id] in
     result ← execute statement;
     lift (scalar_one_or_none result))
    (fun e => mret None).

(** The ordering and pagination steps of [list_async]. *)
Definition list_statement (model : Model) (skip : nat) (limit : option nat)
    (order_by : option string) : Select :=
  let statement := select model in
  let statement :=
    match order_by with
    | Some (String c field_name as name) =>
        if Ascii.eqb c (Ascii.ascii_of_nat 45) then   (* startswith("-") *)
          if hasattr model field_name then
            Stmt.order_by statement (desc (attr model field_name))
          else statement
        else
          if hasattr model name then Stmt.order_by statement (attr model name)
          else statement
    | _ => statement
    end in
  let statement :=
    match skip with
    | 0 => statement
    | _ => Stmt.offset statement skip
    end in
  match limit with
  | Some (S n) => Stmt.limit statement (S n)
  | _ => statement
  end.

Definition list_async (model : Model) (skip : nat) (limit : option nat)
    (order_by : option string) : M (list Row) :=
  try_except
    (results ← execute (list_statement model skip limit order_by);
     mret results)
    (fun e => mret []).

Definition create_async (model : Model) (kwargs : list (string * scalar)) : M Row :=
  try_except
    (t ← now;
     let entity := construct model kwargs t in
     session_add model transient entity ;;
     session_commit ;;
     session_refresh model entity)
    (fun e =>
       match e with
       | IntegrityError => session_rollback ;; raise (SQLAlchemyError e)
       | _ => session_rollback ;; raise (SQLAlchemyError e)
       end).

Definition update_async (model : Model) (id : scalar)
    (kwargs : list (string * scalar)) : M (option Row) :=
  try_except
    (found ← get_async model id;
     match found with
     | None => mret None
     | Some loaded =>
         let entity := setattrs model kwargs loaded in
         entity ←
           (if hasattr model "updated_at" then
              t ← now; mret (<["updated_at" := STime t]> entity)
            else mret entity);
         session_add model (persistent (identity loaded)) entity ;;
         session_commit ;;
         entity ← session_refresh model entity;
         mret (Some entity)
     end)
    (fun e => session_rollback ;; raise (SQLAlchemyError e)).

Definition delete_async (model : Model) (id : scalar) : M bool :=
  try_except
    (found ← get_async model id;
     match found with
     | None => mret false
     | Some entity =>
         session_delete model entity ;;
         session_commit ;;
         mret true
     end)
    (fun e => session_rollback ;; raise (SQLAlchemyError e)).

Definition count_async (model : Model)
    (filters : option (list (string * scalar))) : M Z :=
  try_except
    (let statement := select model in
     let statement :=
       match filters with
       | Some filters => where_equal model statement filters
       | None => statement
       end in
     result ← execute_count statement;
     lift (scalar_one result))
    (fun e => mret 0%Z).

Definition exists_async (model : Model) (kwargs : list (string * scalar)) : M bool :=
  try_except
    (let statement := where_equal model (select model) kwargs in
     let statement := Stmt.limit statement 1 in
     result ← execute statement;
     found ← lift (scalar_one_or_none result);
     mret (bool_decide (is_Some found)))
    (fun e => mret false).

(** The first loop of [bulk_create_async]: construct, add, remember. *)
Fixpoint add_all (model : Model) (entities : list (list (string * scalar)))
    (created : list Row) : M (list Row) :=
  match entities with
  | [] => mret created
  | entity_data :: rest =>
      t ← now;
      let entity := construct model entity_data t in
      session_add model transient entity ;;
      add_all model rest (created ++ [entity])
  end.

(** The second loop: refresh every entity that was created. *)
Fixpoint refresh_all (model : Model) (created : list Row) : M (list Row) :=
  match created with
  | [] => mret []
  | entity :: rest =>
      entity ← session_refresh model entity;
      rest ← refresh_all model rest;
      mret (entity :: rest)
  end.

Definition bulk_create_async (model : Model)
    (entities : list (list (string * scalar))) : M (list Row) :=
  try_except
    (created ← add_all model entities [];
     session_commit ;;
     refresh_all model created)
    (fun e => session_rollback ;; raise (SQLAlchemyError e)).

(** [if "updated_at" not in update_data: update_data["updated_at"] = timestamp] *)
Definition stamp (timestamp : N) (update_data : list (string * scalar))
    : list (string * scalar) :=
  if existsb (fun kv => bool_decide (kv.1 = "updated_at")) update_data
  then update_data
  else update_data ++ [("updated_at", STime timestamp)].

Definition bulk_update_async (model : Model)
    (updates : list (list (string * scalar))) (id_field : string) : M nat :=
  try_except
    (match updates with
     | [] => mret 0
     | _ =>
         updates ←
           (if hasattr model "updated_at" then
              timestamp ← now; mret (stamp timestamp <$> updates)
            else mret updates);
         session_run_sync (bulk_update_mappings model updates) ;;
         session_commit ;;
         mret (length updates)
     end)
    (fun e => session_rollback ;; raise (SQLAlchemyError e)).

Definition find_by_async (model : Model) (kwargs : list (string * scalar))
    : M (option Row) :=
  try_except
    (let statement := where_equal model (select model) kwargs in
     result ← execute statement;
     lift (scalar_one_or_none result))
    (fun e => mret None).

(** The filter loop of [filter_by_async]: a list value becomes [IN]. *)
Definition where_filters (model : Model) (statement : Select)
    (kwargs : list (string * pyval)) : Select :=
  foldl (fun st kv =>
           if hasattr model kv.1 then
             match kv.2 with
             | PyList vs => Stmt.where_ st [in_ (attr model kv.1) vs]
             | PyScalar v => Stmt.where_ st [col_eq (attr model kv.1) v]
             end
           else st)
        statement kwargs.

(** The statement [filter_by_async] builds; [getattr] is not guarded here. *)
Definition filter_by_statement (model : Model) (skip : nat) (limit : option nat)
    (order_by : option string) (order_by_desc : bool)
    (kwargs : list (string * pyval)) : result Select :=
  let statement := where_filters model (select model) kwargs in
  statement ←
    match order_by with
    | Some (String _ _ as name) =>
        column ← getattr model name;
        if order_by_desc then mret (Stmt.order_by statement (desc column))
        else mret (Stmt.order_by statement column)
    | _ => mret statement
    end;
  let statement :=
    match skip with
    | 0 => statement
    | _ => Stmt.offset statement skip
    end in
  match limit with
  | Some (S n) => mret (Stmt.limit statement (S n))
  | _ => mret statement
  end.

Definition filter_by_async (model : Model) (skip : nat) (limit : option nat)
    (order_by : option string) (order_by_desc : bool)
    (kwargs : list (string * pyval)) : M (list Row) :=
  try_except
    (statement ← lift (filter_by_statement model skip limit order_by order_by_desc kwargs);
     results ← execute statement;
     mret results)
    (fun e => mret []).

(** [execute_query_async]: logs and re-raises. *)
Definition execute_query_async (statement : Select) : M (list Row) :=
  try_except
    (results ← execute statement;
     mret results)
    (fun e => raise (SQLAlchemyError e)).

(** [refresh_async]: logs and re-raises. *)
Definition refresh_async (model : Model) (entity : Row) : M Row :=
  try_except
    (session_refresh model entity)
    (fun e => raise (SQLAlchemyError e)).

Definition commit_async : M unit :=
  try_except
    session_commit
    (fun e => session_rollback ;; raise (SQLAlchemyError e)).

Definition rollback_async : M unit := session_rollback.

End Repository.
End BaseRepository.

(** ** [UserRepository] *)

(** [phone.replace("-", "")] *)
Definition remove_hyphens (phone : pystr) : pystr :=
  List.filter (fun c => negb (c =? 45)%N) phone.

Module UserRepository.
Section Repository.
Variable ilike_match : pystr -> pystr -> bool.
Variable trgm_similarity : pystr -> pystr -> Q.

(** These two run their statement outside any [try]. *)
Definition find_by_phone (phone : pystr) : M (option Row) :=
  let normalized_phone := remove_hyphens phone in
  let stmt :=
    Stmt.where_ (select User)
      [and_ (col_eq (attr User "phone") (SText normalized_phone))
            (is_null (attr User "deleted_at"))] in
  result ← session_execute ilike_match trgm_similarity stmt;
  lift (scalar_one_or_none result).

Definition find_by_email (email : pystr) : M (option Row) :=
  let stmt :=
    Stmt.where_ (select User)
      [and_ (col_eq (attr User "email") (SText email))
            (is_null (attr User "deleted_at"))] in
  result ← session_execute ilike_match trgm_similarity stmt;
  lift (scalar_one_or_none result).

(** [soft_delete]: no [try] here either; the two time stamps are two
    readings of the clock. *)
Definition soft_delete (user_id : pystr) : M bool :=
  found ← BaseRepository.get_async ilike_match trgm_similarity User (SText user_id);
  match found with
  | None => mret false
  | Some user =>
      if negb (bool_decide (default SNull (user !! "deleted_at") = SNull)) then
        mret false
      else
        deleted_at ← now;
        let user' := <["deleted_at" := STime deleted_at]> user in
        updated_at ← now;
        let user' := <["updated_at" := STime updated_at]> user' in
        session_add User (persistent (identity user)) user' ;;
        session_commit ;;
        mret true
  end.

End Repository.
End UserRepository.

(** ** [UserService] *)

(** [UserSearchRequest], as validated: [skip >= 0] and [1 <= limit <= 100]. *)
Record UserSearchRequest := {
  req_query : option pystr;
  req_status : option pystr;
  req_gender : option pystr;
  req_skip : nat;
  req_limit : nat;
}.

Record UserSummaryResponse := {
  sum_id : scalar;
  sum_name : scalar;
  sum_gender : scalar;
  sum_phone : scalar;
  sum_status : scalar;
  sum_created_at : scalar;
}.

Record UserListResponse := {
  users : list UserSummaryResponse;
  total : Z;
  resp_skip : nat;
  resp_limit : nat;
}.

(** [value or ""] for an optional string. *)
Definition or_empty (v : scalar) : scalar :=
  match v with
  | SNull | SText [] => SText []
  | _ => v
  end.

(** [user.field] of a loaded entity. *)
Definition field_value (name : string) (r : Row) : scalar := default SNull (r !! name).

Module UserService.
Section Service.
Variable ilike_match : pystr -> pystr -> bool.
Variable trgm_similarity : pystr -> pystr -> Q.

Definition _to_user_summary (user : Row) : UserSummaryResponse :=
  {| sum_id := field_value "id" user;
     sum_name := or_empty (field_value "name" user);
     sum_gender := field_value "gender" user;
     sum_phone := or_empty (field_value "phone" user);
     sum_status := field_value "status" user;
     sum_created_at := field_value "created_at" user |}.

Definition delete_user (user_id : pystr) : M bool :=
  result ← UserRepository.soft_delete ilike_match trgm_similarity user_id;
  mret result.

Definition list_users (request : UserSearchRequest) : M UserListResponse :=
  users ← BaseRepository.list_async ilike_match trgm_similarity User
             (req_skip request) (Some (req_limit request)) (Some "-created_at");
  total ← BaseRepository.count_async ilike_match trgm_similarity User
             (Some [("deleted_at", SNull)]);
  mret {| users := _to_user_summary <$> users; total := total;
          resp_skip := req_skip request; resp_limit := req_limit request |}.

End Service.
End UserService.

(** ** Vocabulary of the properties *)

(** A filter value against a stored value: [None] asks for [NULL]. *)
Definition value_matches (stored v : scalar) : bool :=
  match v with
  | SNull => bool_decide (stored = SNull)
  | _ => bool_decide (eq3 stored v = SBool true)
  end.

(** The rows accepted by the equality filters that name an attribute of the
    model; the other filters do not take part. *)
Definition accepts (m : Model) (kwargs : list (string * scalar)) (r : Row) : bool :=
  forallb (fun kv =>
             if hasattr m kv.1 then value_matches (default SNull (r !! kv.1)) kv.2
             else true)
          kwargs.

(** The value the keyword arguments supply for a field: the binding of the
    field, if the model has it (a dict holds one binding per key; of several
    pairs with one key the last one stands). *)
Definition supplied (m : Model) (kwargs : list (string * scalar)) (f : string)
    : option scalar :=
  if hasattr m f then
    last ((List.filter (fun kv => bool_decide (kv.1 = f)) kwargs).*2)
  else None.

(** What [update_async] writes for a loaded entity at clock reading [t]. *)
Definition updated_entity (m : Model) (kwargs : list (string * scalar)) (t : N)
    (loaded : Row) : Row :=
  let entity := setattrs m kwargs loaded in
  if hasattr m "updated_at" then <["updated_at" := STime t]> entity else entity.

(** The rows a lookup by primary key returns. *)
Definition rows_with_id (id : scalar) (rows : list Row) : list Row :=
  List.filter (fun r => value_matches (identity r) id) rows.

(** The entities a batch constructs, the first at clock reading [t]. *)
Fixpoint constructed (m : Model) (entities : list (list (string * scalar)))
    (t : N) : list Row :=
  match entities with
  | [] => []
  | entity_data :: rest => construct m entity_data t :: constructed m rest (N.succ t)
  end.

(** Two databases that hold the same rows in every table. *)
Definition same_rows (db1 db2 : Database) : Prop :=
  forall t, table_rows db1 t = table_rows db2 t.

(** The value [list_async] sorts on, and the comparison its [ORDER BY]
    makes for [order_by = name] (ascending) or ["-" + name] (descending). *)
Definition sort_key (name : string) (r : Row) : scalar := default SNull (r !! name).

Definition key_cmp (descending : bool) (name : string) (r1 r2 : Row) : comparison :=
  if descending then scalar_cmp (sort_key name r2) (sort_key name r1)
  else scalar_cmp (sort_key name r1) (sort_key name r2).

(** "Not after", for a three-way comparison. *)
Definition cmp_le {A} (cmp : A -> A -> comparison) (x y : A) : Prop :=
  cmp x y <> Gt.

(** No two different rows carry the same sort key. *)
Definition no_ties (name : string) (rows : list Row) : Prop :=
  forall r1 r2, r1 ∈ rows -> r2 ∈ rows ->
    scalar_cmp (sort_key name r1) (sort_key name r2) = Eq -> r1 = r2.

(** ** Example data *)

(** Stand-ins for the database's text operators in examples that use none. *)
Definition no_ilike : pystr -> pystr -> bool := fun _ _ => false.
Definition no_similarity : pystr -> pystr -> Q := fun _ _ => 0%Q.

Definition user_row (id name : string) (created_at : N) : Row :=
  {[ "id" := SText (text id); "name" := SText (text name);
     "created_at" := STime created_at; "is_admin" := SBool false ]}.

Definition kim : Row := user_row "usr_1" "Kim" 10.
Definition kim2 : Row := user_row "usr_2" "Kim" 20.
Definition lee : Row := user_row "usr_3" "Lee" 30.

(** The [user] table: [id] is the primary key and [phone] is unique. *)
Definition user_schema : gmap string (list string) :=
  {[ "user" := ["id"; "phone"] ]}.

Definition user_session (rows : list Row) (fs : list (option sa_kind)) : Session :=
  {| schema := user_schema; committed := {[ "user" := rows ]};
     working := {[ "user" := rows ]}; faults := fs; clock := 100 |}.




(** The primary keys of the rows a call returned. *)
Definition returned_ids (outcome : result (list Row) * Session) : option (list scalar) :=
  match outcome.1 with
  | Ok rows => Some (identity <$> rows)
  | Raise _ => None
  end.

(** A primary-key value as the repository receives it: a string or an
    integer. *)
Definition is_key (v : scalar) : Prop :=
  match v with
  | SText _ | SInt _ => True
  | _ => False
  end.

(** The rows accepted by the filters of [filter_by_async] that name an
    attribute of the model: equality for a plain value, membership for a
    list. *)
Definition accepts_filters (m : Model) (kwargs : list (string * pyval)) (r : Row) : bool :=
  forallb (fun kv =>
             if hasattr m kv.1 then
               match kv.2 with
               | PyScalar v => value_matches (field_value kv.1 r) v
               | PyList vs =>
                   existsb (fun v => bool_decide (eq3 (field_value kv.1 r) v = SBool true)) vs
               end
             else true)
          kwargs.


(** A user that is not soft-deleted and carries the given value in a field. *)
Definition live_with (name : string) (v : pystr) (r : Row) : bool :=
  bool_decide (field_value name r = SText v)
  && bool_decide (field_value "deleted_at" r = SNull).

(** Whitespace only. *)
Definition blank (s : pystr) : Prop := Forall (fun c => isspace c = true) s.

#[global] Instance blank_dec (s : pystr) : Decision (blank s).
Proof. unfold blank. apply _. Defined.



(** A user that is not soft-deleted. *)
Definition live (r : Row) : bool :=
  bool_decide (field_value "deleted_at" r = SNull).

(** Keyword arguments all of whose keys are mapped attributes of the model. *)
Definition mapped (m : Model) {V} (kwargs : list (string * V)) : Prop :=
  Forall (fun kv => hasattr m kv.1 = true) kwargs.

(** What a single-row extraction that absorbs its errors returns. *)
Definition only_one {A} (rows : list A) : option A :=
  match rows with
  | [x] => Some x
  | _ => None
  end.

(** * Properties *)

(** ** Search pattern builder *)

Import SearchPatternBuilder.

(** C1 (as amended).  The strategy is chosen by the length [n] of the
    trimmed query.  For [n = 0] the condition is the always-false pair
    [IS NULL AND IS NOT NULL]; for [n = 1] and [n = 2] it is the [ILIKE]
    on [%query%] alone, whatever [use_trigram_similarity] says; for
    [n >= 3] with [use_trigram_similarity] it is that [ILIKE] or
    [similarity(column, query) > 0.1], and without it the [ILIKE] alone.
    The order key is the bare column (ascending) for [n <= 2] and
    [similarity(column, query)] descending for [n >= 3]. *)
Theorem search_strategy_by_trimmed_length (column : ColumnElement) (query : pystr) :
  let q := strip query in
  match length q with
  | 0 =>
      (forall use, build_search_condition column query use
                   = and_ (is_null column) (isnot_null column))
      /\ build_order_by column query = column
  | 1 | 2 =>
      (forall use, build_search_condition column query use
                   = ilike column (contains_pattern q))
      /\ build_order_by column query = column
  | _ =>
      build_search_condition column query true
        = or_ (ilike column (contains_pattern q))
              (gt (similarity column q) (Literal (SReal (1 # 10)%Q)))
      /\ build_search_condition column query false
        = ilike column (contains_pattern q)
      /\ build_order_by column query = desc (similarity column q)
  end.
Proof.
  unfold build_search_condition, build_order_by. cbn zeta.
  destruct (strip query) as [|a [|b [|c q]]]; cbn; auto.
Qed.

(** C1 as stated covers the empty query too, where the condition is not an
    [ILIKE]: trimmed length 0 is at most 2. *)
Lemma short_query_condition_counterexample :
  length (strip (text "  ")) <= SHORT_QUERY_THRESHOLD
  /\ build_search_condition (Column "user" "name") (text "  ") true
     <> ilike (Column "user" "name") (contains_pattern (strip (text "  "))).
Proof. split; [vm_compute; lia | vm_compute; discriminate]. Qed.

(** [is_short_query] is the test both builders make. *)
Lemma is_short_query_threshold (query : pystr) :
  is_short_query query = true <-> length (strip query) <= SHORT_QUERY_THRESHOLD.
Proof. unfold is_short_query. apply Nat.leb_le. Qed.

(** An order key that is a plain column sorts ascending on that column. *)
Lemma bare_column_sorts_ascending ilike_match trgm_similarity t n e1 e2 :
  clause_cmp ilike_match trgm_similarity (Column t n) e1 e2
  = scalar_cmp (eval ilike_match trgm_similarity e1 (Column t n))
               (eval ilike_match trgm_similarity e2 (Column t n)).
Proof. reflexivity. Qed.

Section EmptyQuery.
Variable ilike_match : pystr -> pystr -> bool.
Variable trgm_similarity : pystr -> pystr -> Q.

Lemma null_and_not_null_is_false env column :
  eval ilike_match trgm_similarity env (and_ (is_null column) (isnot_null column))
  = SBool false.
Proof. cbn. by case_bool_decide. Qed.

Lemma matching_where_false db s column :
  matching ilike_match trgm_similarity db
    (Stmt.where_ s [and_ (is_null column) (isnot_null column)])
  = match matching ilike_match trgm_similarity db s with
    | Ok _ => Ok []
    | Raise e => Raise e
    end.
Proof.
  unfold matching. cbn [Stmt.where_ from_table setup_joins where_criteria].
  case_bool_decide; [|done]. f_equal.
  induction (foldl _ _ _) as [|env envs IH]; [done|].
  cbn [List.filter]. rewrite forallb_app. cbn [forallb].
  unfold holds at 2. rewrite null_and_not_null_is_false.
  rewrite bool_decide_eq_false_2 by discriminate.
  by rewrite andb_false_r.
Qed.

(** C2.  When the query is empty after trimming, the condition evaluates to
    false on every row, whatever the column and the tables in scope; a
    statement that carries it in its [WHERE] matches no row, and an entity
    select over it returns the empty list. *)
Theorem empty_query_matches_nothing (column : ColumnElement) (query : pystr)
    (use : bool) :
  strip query = [] ->
  (forall env, eval ilike_match trgm_similarity env
                 (build_search_condition column query use) = SBool false)
  /\ (forall env, holds ilike_match trgm_similarity env
                    (build_search_condition column query use) = false)
  /\ (forall db s,
        matching ilike_match trgm_similarity db
          (Stmt.where_ s [build_search_condition column query use])
        = match matching ilike_match trgm_similarity db s with
          | Ok _ => Ok []
          | Raise e => Raise e
          end)
  /\ (forall db m,
        run_select ilike_match trgm_similarity db
          (Stmt.where_ (select m) [build_search_condition column query use])
        = Ok []).
Proof.
  intros Hq.
  assert (Hc : build_search_condition column query use
               = and_ (is_null column) (isnot_null column)).
  { unfold build_search_condition. cbn zeta. by rewrite Hq. }
  rewrite Hc. split_and!.
  - intros env. apply null_and_not_null_is_false.
  - intros env. unfold holds. rewrite null_and_not_null_is_false.
    by apply bool_decide_eq_false_2.
  - intros db s. apply matching_where_false.
  - intros db m. unfold run_select. rewrite matching_where_false.
    unfold matching. simpl. reflexivity.
Qed.

End EmptyQuery.

(** C2 for a whitespace-only query, against a table with one row. *)
Lemma empty_query_matches_nothing_witness :
  strip (text "   ") = []
  /\ run_select (fun _ _ => true) (fun _ _ => 1%Q)
       {[ "user" := [ {[ "name" := SText (text "kim") ]} ] ]}
       (Stmt.where_ (select User)
          [build_search_condition (Column "user" "name") (text "   ") true])
     = Ok [].
Proof.
  split; [reflexivity|].
  apply (empty_query_matches_nothing (fun _ _ => true) (fun _ _ => 1%Q)
           (Column "user" "name") (text "   ") true).
  reflexivity.
Defined.

(** ** Locale field selector *)

Import LocaleFieldSelector.

Lemma select_field_cases (model : Model) (prefix : string) (locale : LocaleCode) :
  if hasattr model (get_field_name prefix locale) then
    select_field model prefix locale
    = Ok (Column (__tablename__ model) (get_field_name prefix locale))
  else
    select_field model prefix locale
    = Raise (ValueError
        ("Model " +:+ __name__ model +:+ " does not have field '"
         +:+ get_field_name prefix locale
         +:+ "'. Available fields: " +:+ String.concat ", " (attrs model))).
Proof.
  unfold select_field, get_field_name.
  destruct (hasattr model _); cbn; done.
Qed.

(** C9.  [select_field] returns the column [prefix_locale] exactly when the
    model has an attribute of that name; otherwise it raises a [ValueError]
    whose message names the model and the missing field and ends with the
    comma-separated list of the model's attributes.  It is a pure function,
    so it has no effect on any session.  The batch variant does not catch
    the error: it returns a column for each prefix, in the order requested,
    when every composed name exists, and raises a [ValueError] otherwise. *)
Theorem select_field_raises_iff_missing (model : Model) (prefix : string)
    (locale : LocaleCode) :
  let field_name := get_field_name prefix locale in
  (if hasattr model field_name then
     select_field model prefix locale = Ok (Column (__tablename__ model) field_name)
   else
     select_field model prefix locale
     = Raise (ValueError
         ("Model " +:+ __name__ model +:+ " does not have field '" +:+ field_name
          +:+ "'. Available fields: " +:+ String.concat ", " (attrs model))))
  /\ forall prefixes,
       if forallb (fun p => hasattr model (get_field_name p locale)) prefixes then
         select_multiple_fields model prefixes locale
         = Ok ((fun p => (p, Column (__tablename__ model) (get_field_name p locale)))
                 <$> prefixes)
       else
         exists msg, select_multiple_fields model prefixes locale
                     = Raise (ValueError msg).
Proof.
  cbn zeta. split; [apply select_field_cases|].
  induction prefixes as [|p ps IH]; [done|].
  cbn [forallb select_multiple_fields].
  pose proof (select_field_cases model p locale) as Hp.
  destruct (hasattr model (get_field_name p locale)); rewrite Hp; cbn [andb].
  - destruct (forallb _ ps).
    + by rewrite IH.
    + destruct IH as [msg IH]. rewrite IH. by exists msg.
  - by eexists.
Qed.

Example select_field_name_ko :
  select_field Artist "name" ko = Ok (Column "artist" "name_ko").
Proof. reflexivity. Qed.

Example select_field_bio_en_missing :
  select_field Artist "bio" en
  = Raise (ValueError
      ("Model Artist does not have field 'bio_en'. Available fields: "
       +:+ "id, is_visible, name_en, name_ko, updated_at, user_id")).
Proof. reflexivity. Qed.

(** ** Filter builder *)

Import QueryFilterBuilder.

(** Without an identifier to exclude the statement is returned as it is. *)
Lemma add_exclude_id_filter_absent (s : Select) (m : Model) :
  add_exclude_id_filter s m None = Ok s
  /\ add_exclude_id_filter s m (Some []) = Ok s.
Proof. done. Qed.

(** What one application of the visibility filter adds. *)
Lemma add_visibility_filters_once (s : Select) (m : Model) :
  hasattr m "user_id" = true ->
  hasattr m "is_visible" = true ->
  add_visibility_filters s m
  = Ok (Stmt.where_
          (Stmt.join s User (eq_ (attr m "user_id") (Column "user" "id")))
          [is_false (Column "user" "is_admin"); attr m "is_visible"]).
Proof.
  intros H1 H2. unfold add_visibility_filters, getattr. by rewrite H1, H2.
Qed.

(** C3 (the code against the claim).  On a model with [user_id] and
    [is_visible], a second application of [add_visibility_filters] joins
    [User] again and repeats both criteria: the statement it returns has two
    more joins and four more criteria than the one it started from, and it
    differs from the statement returned by the first application. *)
Theorem add_visibility_filters_twice_rejoins (s : Select) (m : Model) :
  hasattr m "user_id" = true ->
  hasattr m "is_visible" = true ->
  exists once twice,
    add_visibility_filters s m = Ok once
    /\ add_visibility_filters once m = Ok twice
    /\ setup_joins once
       = setup_joins s ++ [("user", eq_ (attr m "user_id") (Column "user" "id"))]
    /\ setup_joins twice
       = setup_joins s ++ [("user", eq_ (attr m "user_id") (Column "user" "id"));
                           ("user", eq_ (attr m "user_id") (Column "user" "id"))]
    /\ where_criteria twice
       = where_criteria s ++ [is_false (Column "user" "is_admin"); attr m "is_visible";
                              is_false (Column "user" "is_admin"); attr m "is_visible"]
    /\ twice <> once.
Proof.
  intros H1 H2. eexists _, _.
  split; [by apply add_visibility_filters_once|].
  split; [by apply add_visibility_filters_once|].
  cbn. rewrite <- !app_assoc. split_and!; try done.
  intros Heq. apply (f_equal (fun st => length (setup_joins st))) in Heq.
  cbn in Heq. rewrite !length_app in Heq. cbn in Heq. lia.
Qed.

(** C3 on [Artist]: after two applications [user] is joined twice. *)
Lemma add_visibility_filters_twice_rejoins_witness :
  exists once twice,
    add_visibility_filters (select Artist) Artist = Ok once
    /\ add_visibility_filters once Artist = Ok twice
    /\ (setup_joins once).*1 = ["user"]
    /\ (setup_joins twice).*1 = ["user"; "user"]
    /\ length (where_criteria twice) = 4
    /\ twice <> once.
Proof.
  destruct (add_visibility_filters_twice_rejoins (select Artist) Artist)
    as (once & twice & H1 & H2 & J1 & J2 & W & Hne); [reflexivity..|].
  exists once, twice. rewrite J1, J2, W. by split_and!.
Defined.

(** The database rejects the statement built by two applications: [user]
    appears twice in its [FROM] list. *)
Lemma add_visibility_filters_twice_execution ilike_match trgm_similarity
    (db : Database) (s : Select) (m : Model) (once twice : Select) :
  add_visibility_filters s m = Ok once ->
  add_visibility_filters once m = Ok twice ->
  run_select ilike_match trgm_similarity db twice
  = Raise (SQLAlchemyError ProgrammingError).
Proof.
  unfold add_visibility_filters, getattr.
  destruct (hasattr m "user_id"); [|done].
  destruct (hasattr m "is_visible"); [|done].
  cbn. intros [= <-] [= <-].
  unfold run_select, matching. cbn.
  rewrite bool_decide_eq_false_2; [done|].
  rewrite !fmap_app. cbn. rewrite NoDup_cons. intros [_ Hnd].
  apply NoDup_app in Hnd as (_ & Hdisjoint & _).
  apply (Hdisjoint "user"); set_solver.
Qed.

(** ** Repository: statements over one table *)

Section RepositoryFacts.
Variable ilike_match : pystr -> pystr -> bool.
Variable trgm_similarity : pystr -> pystr -> Q.

Import BaseRepository.

Local Abbreviation holds' := (holds ilike_match trgm_similarity).
Local Abbreviation run_select' := (run_select ilike_match trgm_similarity).
Local Abbreviation matching' := (matching ilike_match trgm_similarity).
Local Abbreviation rows_matching' := (rows_matching ilike_match trgm_similarity).
Local Abbreviation row_cmp' := (row_cmp ilike_match trgm_similarity).

(** Unfolds the plumbing of [M] in the goal. *)
Ltac run_m :=
  unfold mbind, mret, M_bind, M_ret, lift, gets, modify, raise;
  cbn [fst snd working committed faults schema clock set_faults set_working
       set_table].

Lemma filter_fmap_comm {A B} (f : A -> B) (p : B -> bool) (l : list A) :
  List.filter p (f <$> l) = f <$> List.filter (fun x => p (f x)) l.
Proof.
  induction l as [|x l IH]; [done|]. cbn. destruct (p (f x)); cbn; by rewrite IH.
Qed.

Lemma matching_single_table db s :
  setup_joins s = [] ->
  matching' db s = Ok ((fun r => [(from_table s, r)]) <$> rows_matching' db s).
Proof.
  intros Hj. unfold matching, rows_matching. rewrite Hj. cbn.
  rewrite bool_decide_eq_true_2 by apply NoDup_singleton.
  by rewrite filter_fmap_comm.
Qed.

Lemma sort_by_cons {A} (cmp : A -> A -> comparison) (x : A) (l : list A) :
  sort_by cmp (x :: l) = insert_sorted cmp x (sort_by cmp l).
Proof. reflexivity. Qed.

Lemma insert_sorted_fmap {A B} (f : A -> B) (cmp : B -> B -> comparison)
    (x : A) (l : list A) :
  insert_sorted cmp (f x) (f <$> l)
  = f <$> insert_sorted (fun x y => cmp (f x) (f y)) x l.
Proof.
  induction l as [|y l IH]; [done|]. cbn.
  destruct (cmp (f x) (f y)); cbn; [done..|]. by rewrite IH.
Qed.

Lemma sort_by_fmap {A B} (f : A -> B) (cmp : B -> B -> comparison) (l : list A) :
  sort_by cmp (f <$> l) = f <$> sort_by (fun x y => cmp (f x) (f y)) l.
Proof.
  induction l as [|x l IH]; [done|].
  rewrite fmap_cons, !sort_by_cons, IH. apply insert_sorted_fmap.
Qed.

Lemma window_fmap {A B} (f : A -> B) off lim (l : list A) :
  window off lim (f <$> l) = f <$> window off lim l.
Proof.
  unfold window. rewrite <- fmap_drop. destruct lim; [|done]. by rewrite fmap_take.
Qed.

Lemma project_single_table (t : string) (l : list Row) :
  omap (fun env : Env => env_lookup env t) ((fun r => [(t, r)]) <$> l) = l.
Proof.
  induction l as [|r l IH]; [done|]. cbn. rewrite decide_True by done.
  cbn. by rewrite IH.
Qed.

Lemma run_select_single_table db s :
  setup_joins s = [] ->
  run_select' db s
  = Ok (window (offset_clause s) (limit_clause s)
          (sort_by (row_cmp' s) (rows_matching' db s))).
Proof.
  intros Hj. unfold run_select. rewrite matching_single_table by done.
  rewrite sort_by_fmap, window_fmap, project_single_table. done.
Qed.

Lemma sort_by_unordered {A} (l : list A) : sort_by (fun _ _ => Eq) l = l.
Proof.
  induction l as [|x l IH]; [done|]. rewrite sort_by_cons, IH. by destruct l.
Qed.

Lemma holds_col_eq (m : Model) (k : string) (v : scalar) (r : Row) :
  holds' [(__tablename__ m, r)] (col_eq (attr m k) v)
  = value_matches (default SNull (r !! k)) v.
Proof.
  unfold holds, value_matches, col_eq, attr.
  destruct v; cbn; rewrite decide_True by done; try done.
  apply bool_decide_ext. split; [by intros [= ->%bool_decide_eq_true_1]|].
  intros ->. by rewrite bool_decide_eq_true_2.
Qed.

Lemma where_equal_shape (m : Model) (kwargs : list (string * scalar)) (st : Select) :
  from_table (where_equal m st kwargs) = from_table st
  /\ setup_joins (where_equal m st kwargs) = setup_joins st
  /\ order_by_clauses (where_equal m st kwargs) = order_by_clauses st
  /\ offset_clause (where_equal m st kwargs) = offset_clause st
  /\ limit_clause (where_equal m st kwargs) = limit_clause st.
Proof.
  unfold where_equal. revert st.
  induction kwargs as [|kv kwargs IH]; intros st; [done|]. cbn [foldl].
  destruct (hasattr m kv.1); [|apply IH].
  destruct (IH (Stmt.where_ st [col_eq (attr m kv.1) kv.2])) as (-> & -> & -> & -> & ->).
  done.
Qed.

Lemma where_equal_criteria (m : Model) (kwargs : list (string * scalar))
    (st : Select) (r : Row) :
  from_table st = __tablename__ m ->
  forallb (holds' [(__tablename__ m, r)]) (where_criteria (where_equal m st kwargs))
  = forallb (holds' [(__tablename__ m, r)]) (where_criteria st) && accepts m kwargs r.
Proof.
  unfold where_equal, accepts. revert st.
  induction kwargs as [|kv kwargs IH]; intros st Hst; cbn [foldl forallb].
  { by rewrite andb_true_r. }
  destruct (hasattr m kv.1).
  - rewrite IH by done. cbn [Stmt.where_ where_criteria].
    rewrite forallb_app. cbn [forallb]. rewrite holds_col_eq.
    by rewrite andb_true_r, andb_assoc.
  - by rewrite IH.
Qed.

Lemma rows_matching_where_equal (m : Model) (kwargs : list (string * scalar))
    (db : Database) :
  rows_matching' db (where_equal m (select m) kwargs)
  = List.filter (accepts m kwargs) (table_rows db (__tablename__ m)).
Proof.
  unfold rows_matching.
  destruct (where_equal_shape m kwargs (select m)) as (-> & _).
  cbn [select from_table]. apply List.filter_ext. intros r.
  by rewrite where_equal_criteria.
Qed.

Lemma run_select_where_equal (m : Model) (kwargs : list (string * scalar))
    (db : Database) :
  run_select' db (where_equal m (select m) kwargs)
  = Ok (List.filter (accepts m kwargs) (table_rows db (__tablename__ m))).
Proof.
  destruct (where_equal_shape m kwargs (select m)) as (Hf & Hj & Ho & Hoff & Hlim).
  rewrite run_select_single_table by done.
  unfold row_cmp. rewrite Ho, Hoff, Hlim. cbn [select order_by_clauses offset_clause
    limit_clause order_cmp].
  rewrite sort_by_unordered, rows_matching_where_equal. done.
Qed.

(** ** The session's primitive calls *)

Lemma round_trip_fault (s : Session) k fs :
  faults s = Some k :: fs ->
  round_trip s = (Raise (SQLAlchemyError k), set_faults fs s).
Proof. unfold round_trip. by intros ->. Qed.

Lemma round_trip_healthy (s : Session) :
  faults s = [] -> round_trip s = (Ok (), s).
Proof. unfold round_trip. by intros ->. Qed.

(** A round trip leaves the data alone, whatever its outcome. *)
Lemma round_trip_data (s : Session) :
  let s' := (round_trip s).2 in
  working s' = working s /\ committed s' = committed s /\ schema s' = schema s
  /\ clock s' = clock s.
Proof. unfold round_trip. by destruct (faults s) as [|[k|] fs]. Qed.

Lemma execute_fault (statement : Select) (s : Session) k fs :
  faults s = Some k :: fs ->
  execute ilike_match trgm_similarity statement s
  = (Raise (SQLAlchemyError k), set_faults fs s).
Proof.
  intros Hf. unfold execute, session_execute. run_m. by rewrite (round_trip_fault s k fs).
Qed.

(** Executing an entity select either fails in the round trip or runs the
    statement on the transaction's view; the data is untouched. *)
Lemma execute_cases (statement : Select) (s : Session) :
  exists s', working s' = working s /\ committed s' = committed s
    /\ schema s' = schema s
    /\ ((exists k, execute ilike_match trgm_similarity statement s
                   = (Raise (SQLAlchemyError k), s'))
        \/ execute ilike_match trgm_similarity statement s
           = (run_select' (working s) statement, s')).
Proof.
  unfold execute, session_execute, round_trip. run_m.
  destruct (faults s) as [|[k|] fs]; eexists; (split_and!; [..|eauto]); done.
Qed.

Lemma execute_healthy (statement : Select) (s : Session) :
  faults s = [] ->
  execute ilike_match trgm_similarity statement s
  = (run_select' (working s) statement, s).
Proof.
  intros Hf. unfold execute, session_execute. run_m. by rewrite round_trip_healthy.
Qed.

(** ** [find_by_async] with several matches *)

Lemma scalar_one_or_none_many {A} (rows : list A) :
  2 <= length rows ->
  scalar_one_or_none rows = Raise (SQLAlchemyError MultipleResultsFound).
Proof. destruct rows as [|x [|y rows]]; cbn; [lia..|done]. Qed.

(** C10.  When two or more rows of the table pass the equality filters that
    name attributes of the model, the single-row extraction raises
    [MultipleResultsFound], [find_by_async] catches it and returns [None]:
    no matching entity is returned and the data is left as it was.  (A
    failure of the round trip itself ends the same way.) *)
Theorem find_by_async_multiple_matches_absent (model : Model)
    (kwargs : list (string * scalar)) (s : Session) :
  2 <= length (List.filter (accepts model kwargs)
                 (table_rows (working s) (__tablename__ model))) ->
  scalar_one_or_none
    (List.filter (accepts model kwargs) (table_rows (working s) (__tablename__ model)))
  = Raise (SQLAlchemyError MultipleResultsFound)
  /\ (faults s = [] ->
      execute ilike_match trgm_similarity (where_equal model (select model) kwargs) s
      = (Ok (List.filter (accepts model kwargs)
               (table_rows (working s) (__tablename__ model))), s))
  /\ exists s',
       find_by_async ilike_match trgm_similarity model kwargs s = (Ok None, s')
       /\ working s' = working s /\ committed s' = committed s.
Proof.
  intros Hmany. split; [by apply scalar_one_or_none_many|]. split.
  { intros Hf. by rewrite execute_healthy, run_select_where_equal. }
  unfold find_by_async, try_except. run_m.
  destruct (execute_cases (where_equal model (select model) kwargs) s)
    as (s' & Hw & Hc & _ & [[k ->] | ->]).
  - by exists s'.
  - rewrite run_select_where_equal, scalar_one_or_none_many by done. by exists s'.
Qed.


(** ** Names the model does not have *)

Lemma setattrs_snoc (m : Model) kwargs kv (e : Row) :
  setattrs m (kwargs ++ [kv]) e
  = if hasattr m kv.1 then <[kv.1 := kv.2]> (setattrs m kwargs e)
    else setattrs m kwargs e.
Proof. unfold setattrs. by rewrite foldl_app. Qed.

(** [update_async] leaves out the keys the model does not have. *)
Lemma setattrs_known_only (m : Model) (kwargs : list (string * scalar)) (e : Row) :
  setattrs m kwargs e
  = setattrs m (List.filter (fun kv => hasattr m kv.1) kwargs) e.
Proof.
  unfold setattrs. revert e.
  induction kwargs as [|kv kwargs IH]; intros e; [done|]. cbn [foldl List.filter].
  destruct (hasattr m kv.1) eqn:Hkv; cbn [foldl]; [rewrite Hkv|]; apply IH.
Qed.

(** [list_async] builds the same statement as without [order_by] when the
    name, and the name behind a leading dash, are not on the model. *)
Lemma list_statement_unknown_order_by (m : Model) skip limit (name : string) :
  hasattr m name = false ->
  (forall rest, name = String (Ascii.ascii_of_nat 45) rest -> hasattr m rest = false) ->
  list_statement m skip limit (Some name) = list_statement m skip limit None.
Proof.
  intros Hname Hrest. unfold list_statement.
  destruct name as [|c rest]; [done|].
  destruct (Ascii.eqb c (Ascii.ascii_of_nat 45)) eqn:Hc.
  - apply Ascii.eqb_eq in Hc as ->. by rewrite (Hrest rest).
  - by rewrite Hname.
Qed.

(** C4 (the code against the claim).  For a name the model does not have:
    [update_async] drops the key and [list_async] builds its statement as if
    no [order_by] had been given, but [filter_by_async] calls [getattr]
    without the [hasattr] test its sibling makes, so a non-empty unknown
    [order_by] raises [AttributeError]; the [except SQLAlchemyError] clause
    does not catch it and no query is sent. *)
Theorem filter_by_async_unknown_order_by_raises (model : Model) (skip : nat)
    (limit : option nat) (name : string) (order_by_desc : bool)
    (kwargs : list (string * pyval)) (s : Session) :
  name <> "" ->
  hasattr model name = false ->
  filter_by_async ilike_match trgm_similarity model skip limit (Some name)
    order_by_desc kwargs s
  = (Raise (AttributeError
       ("type object '" +:+ __name__ model +:+ "' has no attribute '" +:+ name +:+ "'")),
     s)
  /\ (forall v kw (e : Row), setattrs model ((name, v) :: kw) e = setattrs model kw e)
  /\ ((forall rest, name = String (Ascii.ascii_of_nat 45) rest ->
                    hasattr model rest = false) ->
      list_async ilike_match trgm_similarity model skip limit (Some name)
      = list_async ilike_match trgm_similarity model skip limit None).
Proof.
  intros Hne Hname. split_and!.
  - unfold filter_by_async, try_except, filter_by_statement. run_m.
    destruct name as [|c rest]; [done|]. unfold getattr. rewrite Hname. done.
  - intros v kw e. unfold setattrs. cbn [foldl fst]. by rewrite Hname.
  - intros Hrest. unfold list_async.
    by rewrite list_statement_unknown_order_by.
Qed.


(** ** Lookup by primary key *)

Lemma get_async_statement (m : Model) (id : scalar) (db : Database) :
  hasattr m "id" = true ->
  run_select' db (Stmt.where_ (select m) [col_eq (attr m "id") id])
  = Ok (rows_with_id id (table_rows db (__tablename__ m))).
Proof.
  intros Hid.
  replace (Stmt.where_ (select m) [col_eq (attr m "id") id])
    with (where_equal m (select m) [("id", id)])
    by (unfold where_equal; cbn; by rewrite Hid).
  rewrite run_select_where_equal. f_equal. apply List.filter_ext. intros r.
  unfold accepts. cbn. rewrite Hid. by rewrite andb_true_r.
Qed.

(** [get_async] never raises on a model with an [id]; it answers from the
    transaction's view or, when the round trip fails or several rows carry
    the id, with [None]; the data is untouched. *)
Lemma get_async_cases (m : Model) (id : scalar) (s : Session) :
  hasattr m "id" = true ->
  exists found s',
    get_async ilike_match trgm_similarity m id s = (Ok found, s')
    /\ working s' = working s /\ committed s' = committed s
    /\ schema s' = schema s
    /\ match found with
       | Some r => rows_with_id id (table_rows (working s) (__tablename__ m)) = [r]
       | None => True
       end.
Proof.
  intros Hid. unfold get_async, try_except, getattr. rewrite Hid. run_m.
  destruct (execute_cases (Stmt.where_ (select m) [col_eq (attr m "id") id]) s)
    as (s' & Hw & Hc & Hs & [[k ->] | ->]).
  { by exists None, s'. }
  rewrite get_async_statement by done.
  destruct (rows_with_id _ _) as [|r [|r' rows]] eqn:Hrows; cbn.
  - by exists None, s'.
  - by exists (Some r), s'.
  - by exists None, s'.
Qed.

Lemma get_async_healthy (m : Model) (id : scalar) (s : Session) :
  hasattr m "id" = true ->
  faults s = [] ->
  get_async ilike_match trgm_similarity m id s
  = (Ok match rows_with_id id (table_rows (working s) (__tablename__ m)) with
        | [r] => Some r
        | _ => None
        end, s).
Proof.
  intros Hid Hf. unfold get_async, try_except, getattr. rewrite Hid. run_m.
  rewrite execute_healthy, get_async_statement by done.
  by destruct (rows_with_id _ _) as [|r [|r' rows]].
Qed.

Lemma get_async_absent (m : Model) (id : scalar) (s : Session) :
  hasattr m "id" = true ->
  rows_with_id id (table_rows (working s) (__tablename__ m)) = [] ->
  exists s',
    get_async ilike_match trgm_similarity m id s = (Ok None, s')
    /\ working s' = working s /\ committed s' = committed s.
Proof.
  intros Hid Hrows.
  destruct (get_async_cases m id s Hid) as (found & s' & Hg & Hw & Hc & _ & Hfound).
  exists s'. rewrite Hrows in Hfound. by destruct found.
Qed.

(** ** Field-wise effect of the assignments *)

Lemma setattrs_lookup (m : Model) (kwargs : list (string * scalar)) (e : Row)
    (f : string) :
  setattrs m kwargs e !! f
  = match supplied m kwargs f with
    | Some v => Some v
    | None => e !! f
    end.
Proof.
  unfold supplied.
  induction kwargs as [|kv kwargs IH] using rev_ind.
  { cbn. by destruct (hasattr m f). }
  rewrite setattrs_snoc, List.filter_app, fmap_app. cbn [List.filter].
  destruct (decide (kv.1 = f)) as [<-|Hne].
  - rewrite bool_decide_eq_true_2 by done. cbn [fmap list_fmap].
    destruct (hasattr m kv.1).
    + by rewrite last_snoc, lookup_insert_eq.
    + done.
  - rewrite bool_decide_eq_false_2 by done. cbn [fmap list_fmap].
    rewrite app_nil_r.
    destruct (hasattr m kv.1); [|done]. by rewrite lookup_insert_ne.
Qed.

Lemma updated_entity_lookup (m : Model) (kwargs : list (string * scalar)) (t : N)
    (loaded : Row) (f : string) :
  updated_entity m kwargs t loaded !! f
  = if decide (f = "updated_at" /\ hasattr m "updated_at" = true)
    then Some (STime t)
    else match supplied m kwargs f with
         | Some v => Some v
         | None => loaded !! f
         end.
Proof.
  unfold updated_entity. destruct (hasattr m "updated_at") eqn:Hu; cbn zeta.
  - destruct (decide (f = "updated_at")) as [->|Hne].
    + rewrite decide_True by done. apply lookup_insert_eq.
    + rewrite decide_False by (intros [? _]; done).
      rewrite lookup_insert_ne by done. apply setattrs_lookup.
  - rewrite decide_False by (intros [_ ?]; done). apply setattrs_lookup.
Qed.


(** ** Commit, rollback and refresh on a healthy connection *)

Lemma session_commit_healthy (s : Session) :
  faults s = [] ->
  session_commit s
  = if decide (consistent (schema s) (working s)) then
      (Ok (), {| schema := schema s; committed := working s; working := working s;
                 faults := faults s; clock := clock s |})
    else (Raise (SQLAlchemyError IntegrityError), s).
Proof.
  intros Hf. unfold session_commit. run_m. rewrite round_trip_healthy by done.
  destruct (decide _) as [H|H].
  - by rewrite bool_decide_eq_true_2.
  - by rewrite bool_decide_eq_false_2.
Qed.

Lemma find_by_identity (entity : Row) (rows : list Row) :
  NoDup (identity <$> rows) ->
  entity ∈ rows ->
  List.find (fun r => bool_decide (identity r = identity entity)) rows = Some entity.
Proof.
  induction rows as [|r rows IH]; intros Hnd Hin; [by apply not_elem_of_nil in Hin|].
  cbn. rewrite fmap_cons in Hnd. apply NoDup_cons in Hnd as [Hr Hnd].
  apply elem_of_cons in Hin as [->|Hin].
  - by rewrite bool_decide_eq_true_2.
  - case_bool_decide as Heq; [|by apply IH].
    exfalso. apply Hr. rewrite Heq. by apply list_elem_of_fmap_2.
Qed.

Lemma session_refresh_healthy (m : Model) (entity : Row) (s : Session) :
  faults s = [] ->
  NoDup (identity <$> table_rows (working s) (__tablename__ m)) ->
  entity ∈ table_rows (working s) (__tablename__ m) ->
  session_refresh m entity s = (Ok entity, s).
Proof.
  intros Hf Hnd Hin. unfold session_refresh. run_m.
  rewrite round_trip_healthy by done. cbn. by rewrite find_by_identity.
Qed.

Lemma table_rows_insert (db : Database) (t : string) (rows : list Row) :
  table_rows (<[t := rows]> db) t = rows.
Proof. unfold table_rows. by rewrite lookup_insert_eq. Qed.

Lemma rows_with_id_elem (id : scalar) (rows : list Row) (r : Row) :
  rows_with_id id rows = [r] -> r ∈ rows.
Proof.
  intros Hr. apply list_elem_of_In.
  apply (proj1 (List.filter_In (fun r => value_matches (identity r) id) r rows)).
  fold (rows_with_id id rows). rewrite Hr. by left.
Qed.

Lemma write_back_elem (key : scalar) (entity loaded : Row) (rows : list Row) :
  loaded ∈ rows -> identity loaded = key -> entity ∈ write_back key entity rows.
Proof.
  intros Hin Hk. unfold write_back.
  apply list_elem_of_fmap. exists loaded. by rewrite decide_True.
Qed.

(** C5.  On a model with an [id]: when no row carries the id,
    [update_async] returns [None] and leaves the committed data and the
    transaction's view as they were.  When exactly one row [loaded] carries
    it, the connection is healthy and the updated table satisfies its
    constraints (unique columns, distinct primary keys), it returns the
    entity in which every field is: the time stamp, for [updated_at] when the
    model declares it; else the supplied value, for a supplied field the
    model declares; else the value [loaded] had.  That entity replaces
    [loaded] in the table and the change is committed. *)
Theorem update_async_partial_fields (model : Model) (id : scalar)
    (kwargs : list (string * scalar)) (s : Session) :
  hasattr model "id" = true ->
  let rows := table_rows (working s) (__tablename__ model) in
  (rows_with_id id rows = [] ->
   exists s',
     update_async ilike_match trgm_similarity model id kwargs s = (Ok None, s')
     /\ working s' = working s /\ committed s' = committed s)
  /\ (forall loaded,
        rows_with_id id rows = [loaded] ->
        faults s = [] ->
        let entity := updated_entity model kwargs (clock s) loaded in
        let rows' := write_back (identity loaded) entity rows in
        consistent (schema s) (<[__tablename__ model := rows']> (working s)) ->
        NoDup (identity <$> rows') ->
        (forall f,
           entity !! f
           = if decide (f = "updated_at" /\ hasattr model "updated_at" = true)
             then Some (STime (clock s))
             else match supplied model kwargs f with
                  | Some v => Some v
                  | None => loaded !! f
                  end)
        /\ exists s',
             update_async ilike_match trgm_similarity model id kwargs s
             = (Ok (Some entity), s')
             /\ committed s' = <[__tablename__ model := rows']> (working s)
             /\ working s' = committed s').
Proof.
  intros Hid rows. split.
  - intros Hrows.
    destruct (get_async_absent model id s Hid Hrows) as (s' & Hg & Hw & Hc).
    exists s'. unfold update_async, try_except. run_m. by rewrite Hg.
  - intros loaded Hrows Hf entity rows' Hcons Hnd.
    split; [intros f; apply updated_entity_lookup|].
    unfold update_async, try_except. run_m.
    rewrite get_async_healthy by done. fold rows. rewrite Hrows.
    assert (Hin : entity ∈ rows').
    { eapply write_back_elem; [by eapply rows_with_id_elem|done]. }
    unfold entity, updated_entity in *. clear entity.
    destruct (hasattr model "updated_at"); cbn zeta in *;
      unfold now, session_add; run_m;
      (rewrite session_commit_healthy by done);
      cbn [working committed faults schema clock set_table set_working];
      fold rows; fold rows'; (rewrite decide_True by done);
      (rewrite session_refresh_healthy;
         [|done|cbn [working]; by rewrite table_rows_insert..]);
      by eexists.
Qed.


(** ** Bulk creation *)

Lemma table_rows_insert_ne (db : Database) (t t' : string) (rows : list Row) :
  t <> t' -> table_rows (<[t := rows]> db) t' = table_rows db t'.
Proof. intros Hne. unfold table_rows. by rewrite lookup_insert_ne. Qed.

Lemma same_rows_insert (db1 db2 : Database) (t : string) (rows : list Row) :
  same_rows db1 db2 -> same_rows (<[t := rows]> db1) (<[t := rows]> db2).
Proof.
  intros Hsame t'. destruct (decide (t = t')) as [<-|Hne].
  - by rewrite !table_rows_insert.
  - by rewrite !table_rows_insert_ne.
Qed.

Lemma same_rows_insert_insert (db : Database) (t : string) (rows1 rows2 : list Row) :
  same_rows (<[t := rows2]> (<[t := rows1]> db)) (<[t := rows2]> db).
Proof. intros t'. by rewrite insert_insert_eq. Qed.

Lemma same_rows_insert_id (db : Database) (t : string) :
  same_rows db (<[t := table_rows db t]> db).
Proof.
  intros t'. destruct (decide (t = t')) as [<-|Hne].
  - by rewrite table_rows_insert.
  - by rewrite table_rows_insert_ne.
Qed.

Lemma consistent_same_rows (sch : gmap string (list string)) (db1 db2 : Database) :
  same_rows db1 db2 -> consistent sch db1 -> consistent sch db2.
Proof.
  intros Hsame Hc t cols Ht. specialize (Hc t cols Ht). cbn in *.
  by rewrite <- Hsame.
Qed.

(** The first loop adds every constructed entity to the unit of work. *)
Lemma add_all_run (model : Model) (entities : list (list (string * scalar)))
    (created : list Row) (s : Session) :
  exists s',
    add_all model entities created s
    = (Ok (created ++ constructed model entities (clock s)), s')
    /\ same_rows (working s')
         (<[__tablename__ model :=
              table_rows (working s) (__tablename__ model)
              ++ constructed model entities (clock s)]> (working s))
    /\ committed s' = committed s /\ faults s' = faults s
    /\ schema s' = schema s.
Proof.
  revert created s. induction entities as [|data entities IH]; intros created s.
  - exists s. cbn. rewrite !app_nil_r. split_and!; try done.
    apply same_rows_insert_id.
  - cbn [add_all constructed]. unfold session_add, now. run_m.
    match goal with
    | |- context [add_all model entities ?created' ?s1] =>
        destruct (IH created' s1) as (s' & -> & Hw & Hc & Hf & Hs)
    end.
    exists s'. cbn [clock set_table set_working working] in *.
    rewrite <- app_assoc. split_and!; try done.
    intros t'. rewrite Hw. rewrite table_rows_insert, <- app_assoc.
    apply same_rows_insert_insert.
Qed.

Lemma refresh_all_healthy (model : Model) (created : list Row) (s : Session) :
  faults s = [] ->
  NoDup (identity <$> table_rows (working s) (__tablename__ model)) ->
  created ⊆ table_rows (working s) (__tablename__ model) ->
  refresh_all model created s = (Ok created, s).
Proof.
  intros Hf Hnd. induction created as [|e created IH]; intros Hsub; [done|].
  cbn [refresh_all]. run_m.
  rewrite session_refresh_healthy; [|done..|set_solver].
  rewrite IH by set_solver. done.
Qed.

Lemma session_commit_fault (s : Session) k fs :
  faults s = Some k :: fs ->
  session_commit s = (Raise (SQLAlchemyError k), set_faults fs s).
Proof.
  intros Hf. unfold session_commit. run_m. by rewrite (round_trip_fault s k fs).
Qed.

(** C6.  [bulk_create_async] adds every constructed row to the unit of work
    and commits once.  When that commit fails, because the round trip fails
    or because the table with the new rows violates a uniqueness constraint
    (then with [IntegrityError]), the session is rolled back: the committed
    data is exactly what it was, nothing of the batch stays pending, and the
    error is raised.  When the connection is healthy and the table with the
    new rows satisfies its constraints, every row of the batch is in the
    committed table, after the rows that were there, and the batch is
    returned. *)
Theorem bulk_create_async_all_or_nothing (model : Model)
    (entities : list (list (string * scalar))) (s : Session) :
  let t := __tablename__ model in
  let created := constructed model entities (clock s) in
  let db' := <[t := table_rows (working s) t ++ created]> (working s) in
  (forall k fs,
     faults s = Some k :: fs ->
     exists s',
       bulk_create_async model entities s = (Raise (SQLAlchemyError k), s')
       /\ committed s' = committed s /\ working s' = committed s)
  /\ (faults s = [] ->
      ~ consistent (schema s) db' ->
      exists s',
        bulk_create_async model entities s
        = (Raise (SQLAlchemyError IntegrityError), s')
        /\ committed s' = committed s /\ working s' = committed s)
  /\ (faults s = [] ->
      consistent (schema s) db' ->
      NoDup (identity <$> (table_rows (working s) t ++ created)) ->
      exists s',
        bulk_create_async model entities s = (Ok created, s')
        /\ same_rows (committed s') db'
        /\ working s' = committed s').
Proof.
  intros t created db'.
  destruct (add_all_run model entities [] s) as (s1 & Hadd & Hw & Hc & Hf & Hs).
  rewrite app_nil_l in Hadd. fold created t in Hadd, Hw. fold db' in Hw.
  unfold bulk_create_async, try_except. run_m. rewrite Hadd.
  split_and!.
  - intros k fs Hfault. rewrite (session_commit_fault s1 k fs) by congruence.
    unfold session_rollback. run_m. eexists. split; [done|]. by cbn.
  - intros Hhealthy Hbad. rewrite session_commit_healthy by congruence.
    rewrite decide_False.
    2:{ rewrite Hs. intros Hgood. apply Hbad.
        eapply consistent_same_rows; [apply Hw|done]. }
    unfold session_rollback. run_m. eexists. split; [done|]. by cbn.
  - intros Hhealthy Hgood Hnd. rewrite session_commit_healthy by congruence.
    rewrite decide_True.
    2:{ rewrite Hs. eapply consistent_same_rows; [|done]. intros t'. by rewrite Hw. }
    assert (Hrows : table_rows (working s1) t = table_rows (working s) t ++ created).
    { rewrite Hw. unfold db'. by rewrite table_rows_insert. }
    rewrite refresh_all_healthy.
    + eexists. split; [done|]. by cbn.
    + cbn. congruence.
    + cbn. fold t. by rewrite Hrows.
    + cbn. fold t. rewrite Hrows. set_solver.
Qed.


(** ** Failures of the database *)

Lemma execute_count_fault (statement : Select) (s : Session) k fs :
  faults s = Some k :: fs ->
  execute_count ilike_match trgm_similarity statement s
  = (Raise (SQLAlchemyError k), set_faults fs s).
Proof.
  intros Hf. unfold execute_count, session_execute_count. run_m.
  by rewrite (round_trip_fault s k fs).
Qed.
(** A failing round trip in a read is absorbed: the call returns the value
    it returns for "nothing there". *)
Lemma reads_absorb_failure (model : Model) (s : Session) k fs :
  hasattr model "id" = true ->
  faults s = Some k :: fs ->
  (forall id,
     get_async ilike_match trgm_similarity model id s = (Ok None, set_faults fs s))
  /\ (forall kwargs,
        find_by_async ilike_match trgm_similarity model kwargs s
        = (Ok None, set_faults fs s))
  /\ (forall skip limit,
        list_async ilike_match trgm_similarity model skip limit None s
        = (Ok [], set_faults fs s))
  /\ (forall filters,
        count_async ilike_match trgm_similarity model filters s
        = (Ok 0%Z, set_faults fs s))
  /\ (forall kwargs,
        exists_async ilike_match trgm_similarity model kwargs s
        = (Ok false, set_faults fs s)).
Proof.
  intros Hid Hf. split_and!.
  - intros id. unfold get_async, try_except, getattr. rewrite Hid. run_m.
    by rewrite (execute_fault _ s k fs).
  - intros kwargs. unfold find_by_async, try_except. run_m.
    by rewrite (execute_fault _ s k fs).
  - intros skip limit. unfold list_async, try_except. run_m.
    by rewrite (execute_fault _ s k fs).
  - intros filters. unfold count_async, try_except. run_m.
    by rewrite (execute_count_fault _ s k fs).
  - intros kwargs. unfold exists_async, try_except. run_m.
    by rewrite (execute_fault _ s k fs).
Qed.

(** A failure of the commit in [create_async], its first round trip, is
    raised with its own kind after the rollback. *)
Lemma create_async_commit_fault (model : Model) (kwargs : list (string * scalar))
    (s : Session) k fs :
  faults s = Some k :: fs ->
  exists s',
    create_async model kwargs s = (Raise (SQLAlchemyError k), s')
    /\ committed s' = committed s /\ working s' = committed s /\ faults s' = fs.
Proof.
  intros Hf. unfold create_async, try_except, now, session_add, session_rollback.
  run_m. rewrite (session_commit_fault _ k fs) by done.
  destruct k; run_m; eexists; by split_and!.
Qed.

(** C7 (the code against the claim).  A database failure in the lookup that
    opens [update_async] or [delete_async] is swallowed.  On a model with an
    [id], in any session whose next round trip fails, whatever the table
    holds and so also when the row is there: [update_async] returns [None]
    and [delete_async] returns [False], the answers for a missing row;
    nothing is raised and nothing is rolled back, the session is as before
    but for the round trip.  The same failure in the first round trip of
    [create_async] is raised, with its own kind, after the rollback. *)
Theorem update_delete_swallow_lookup_failure (model : Model) (s : Session) k fs :
  hasattr model "id" = true ->
  faults s = Some k :: fs ->
  (forall id kwargs,
     update_async ilike_match trgm_similarity model id kwargs s
     = (Ok None, set_faults fs s))
  /\ (forall id,
        delete_async ilike_match trgm_similarity model id s
        = (Ok false, set_faults fs s))
  /\ (forall kwargs,
        exists s',
          create_async model kwargs s = (Raise (SQLAlchemyError k), s')
          /\ committed s' = committed s /\ working s' = committed s).
Proof.
  intros Hid Hf.
  destruct (reads_absorb_failure model s k fs Hid Hf) as (Hget & _).
  split_and!.
  - intros id kwargs. unfold update_async, try_except. run_m. by rewrite Hget.
  - intros id. unfold delete_async, try_except. run_m. by rewrite Hget.
  - intros kwargs.
    destruct (create_async_commit_fault model kwargs s k fs Hf) as (s' & ? & ? & ? & _).
    by exists s'.
Qed.



End RepositoryFacts.

(** ** Ordering *)

Lemma text_cmp_antisym (a b : pystr) : text_cmp b a = CompOpp (text_cmp a b).
Proof.
  revert b. induction a as [|x a IH]; intros [|y b]; cbn; try done.
  rewrite (N.compare_antisym x y). destruct (x ?= y)%N; cbn; auto.
Qed.

Lemma text_cmp_le_trans (a b c : pystr) :
  text_cmp a b <> Gt -> text_cmp b c <> Gt -> text_cmp a c <> Gt.
Proof.
  revert b c. induction a as [|x a IH]; intros [|y b] [|z c]; cbn; try done.
  destruct (N.compare_spec x y), (N.compare_spec y z), (N.compare_spec x z);
    subst; try done; try lia; eauto.
Qed.

Lemma scalar_cmp_antisym (a b : scalar) : scalar_cmp b a = CompOpp (scalar_cmp a b).
Proof.
  destruct a, b; cbn; try done.
  - by destruct b, b0.
  - apply Z.compare_antisym.
  - apply text_cmp_antisym.
  - symmetry. apply Qcompare_antisym.
  - apply N.compare_antisym.
Qed.

Lemma scalar_cmp_le_trans (a b c : scalar) :
  scalar_cmp a b <> Gt -> scalar_cmp b c <> Gt -> scalar_cmp a c <> Gt.
Proof.
  destruct a, b, c; cbn; try done.
  - by destruct b, b0, b1.
  - apply Z.le_trans.
  - apply text_cmp_le_trans.
  - rewrite <- !Qle_alt. apply Qle_trans.
  - apply N.le_trans.
Qed.

Section Sorting.
Context {A : Type} (cmp : A -> A -> comparison).
Hypothesis cmp_antisym : forall x y, cmp y x = CompOpp (cmp x y).
Hypothesis cmp_le_trans :
  forall x y z, cmp x y <> Gt -> cmp y z <> Gt -> cmp x z <> Gt.

Local Abbreviation le' := (cmp_le cmp).

Lemma insert_sorted_perm (x : A) (l : list A) : insert_sorted cmp x l ≡ₚ x :: l.
Proof.
  induction l as [|y l IH]; [done|]. cbn.
  destruct (cmp x y); [done..|]. rewrite IH. apply Permutation_swap.
Qed.

Lemma sort_by_perm (l : list A) : sort_by cmp l ≡ₚ l.
Proof.
  induction l as [|x l IH]; [done|].
  rewrite sort_by_cons, insert_sorted_perm. by rewrite IH.
Qed.

Lemma insert_sorted_sorted (x : A) (l : list A) :
  StronglySorted le' l -> StronglySorted le' (insert_sorted cmp x l).
Proof.
  induction 1 as [|y l Hl IH Hy]; [repeat constructor|]. cbn.
  destruct (cmp x y) eqn:Hxy.
  - constructor; [by constructor|]. constructor; [unfold cmp_le; congruence|].
    eapply Forall_impl; [exact Hy|]. intros z Hz.
    eapply cmp_le_trans; [|exact Hz]. congruence.
  - constructor; [by constructor|]. constructor; [unfold cmp_le; congruence|].
    eapply Forall_impl; [exact Hy|]. intros z Hz.
    eapply cmp_le_trans; [|exact Hz]. congruence.
  - constructor; [done|]. rewrite insert_sorted_perm. constructor; [|done].
    unfold cmp_le. rewrite cmp_antisym, Hxy. done.
Qed.

Lemma sort_by_sorted (l : list A) : StronglySorted le' (sort_by cmp l).
Proof.
  induction l as [|x l IH]; [constructor|].
  rewrite sort_by_cons. by apply insert_sorted_sorted.
Qed.

(** Without ties the sorted list does not depend on the order of the input. *)
Lemma sort_by_unique (l1 l2 : list A) :
  l1 ≡ₚ l2 ->
  (forall x y, x ∈ l1 -> y ∈ l1 -> cmp x y = Eq -> x = y) ->
  sort_by cmp l1 = sort_by cmp l2.
Proof.
  intros Hperm Hties.
  apply (StronglySorted_unique_strong le');
    [|apply sort_by_sorted..|by rewrite !sort_by_perm].
  intros x y Hx Hy Hxy Hyx. apply Hties.
  - by rewrite sort_by_perm in Hx.
  - by rewrite sort_by_perm, <- Hperm in Hy.
  - unfold cmp_le in *. rewrite cmp_antisym in Hyx.
    destruct (cmp x y); done.
Qed.

End Sorting.

Lemma sort_by_ext {A} (cmp1 cmp2 : A -> A -> comparison) (l : list A) :
  (forall x y, cmp1 x y = cmp2 x y) -> sort_by cmp1 l = sort_by cmp2 l.
Proof.
  intros Hext. induction l as [|x l IH]; [done|].
  rewrite !sort_by_cons, IH. generalize (sort_by cmp2 l). intros l'.
  induction l' as [|y l' IH']; [done|]. cbn. by rewrite Hext, IH'.
Qed.

Lemma key_cmp_antisym descending name (r1 r2 : Row) :
  key_cmp descending name r2 r1 = CompOpp (key_cmp descending name r1 r2).
Proof. unfold key_cmp. destruct descending; apply scalar_cmp_antisym. Qed.

Lemma key_cmp_le_trans descending name (r1 r2 r3 : Row) :
  key_cmp descending name r1 r2 <> Gt ->
  key_cmp descending name r2 r3 <> Gt ->
  key_cmp descending name r1 r3 <> Gt.
Proof.
  unfold key_cmp. destruct descending; [|apply scalar_cmp_le_trans].
  intros H12 H23. by apply (scalar_cmp_le_trans _ (sort_key name r2)).
Qed.

Lemma key_cmp_no_ties descending name (rows : list Row) :
  no_ties name rows ->
  forall r1 r2, r1 ∈ rows -> r2 ∈ rows -> key_cmp descending name r1 r2 = Eq -> r1 = r2.
Proof.
  intros Hties r1 r2 H1 H2. unfold key_cmp. destruct descending; [|by apply Hties].
  intros Heq. symmetry. by apply Hties.
Qed.

(** ** Pagination *)

Section Pagination.
Variable ilike_match : pystr -> pystr -> bool.
Variable trgm_similarity : pystr -> pystr -> Q.

Import BaseRepository.

(** The [order_by] argument for a field: the name, or the name behind a
    dash for descending order. *)
Lemma list_statement_ordered (model : Model) (name : string) (c : Ascii.ascii)
    (rest : string) (descending : bool) (skip : nat) (limit : option nat) :
  name = String c rest ->
  c <> Ascii.ascii_of_nat 45 ->
  hasattr model name = true ->
  let arg := if descending then String (Ascii.ascii_of_nat 45) name else name in
  let clause := if descending then desc (attr model name) else attr model name in
  let st := list_statement model skip limit (Some arg) in
  from_table st = __tablename__ model
  /\ setup_joins st = [] /\ where_criteria st = []
  /\ order_by_clauses st = [clause]
  /\ offset_clause st = match skip with 0 => None | _ => Some skip end
  /\ limit_clause st = match limit with Some (S n) => Some (S n) | _ => None end.
Proof.
  intros -> Hc Hattr. cbn zeta. unfold list_statement.
  destruct descending.
  - rewrite Ascii.eqb_refl, Hattr.
    destruct skip, limit as [[|n]|]; done.
  - rewrite (proj2 (Ascii.eqb_neq _ _) Hc), Hattr.
    destruct skip, limit as [[|n]|]; done.
Qed.

Lemma row_cmp_key_cmp (st : Select) (model : Model) (name : string)
    (descending : bool) (r1 r2 : Row) :
  from_table st = __tablename__ model ->
  order_by_clauses st
  = [if descending then desc (attr model name) else attr model name] ->
  row_cmp ilike_match trgm_similarity st r1 r2 = key_cmp descending name r1 r2.
Proof.
  intros Hfrom Hord. unfold row_cmp, key_cmp, sort_key. rewrite Hfrom, Hord.
  destruct descending; cbn; rewrite !decide_True by done;
    by destruct (scalar_cmp _ _).
Qed.

Lemma list_async_ordered (model : Model) (name : string) (c : Ascii.ascii)
    (rest : string) (descending : bool) (skip : nat) (limit : option nat)
    (s : Session) :
  name = String c rest ->
  c <> Ascii.ascii_of_nat 45 ->
  hasattr model name = true ->
  faults s = [] ->
  list_async ilike_match trgm_similarity model skip limit
    (Some (if descending then String (Ascii.ascii_of_nat 45) name else name)) s
  = (Ok (window match skip with 0 => None | _ => Some skip end
                match limit with Some (S n) => Some (S n) | _ => None end
                (sort_by (key_cmp descending name)
                   (table_rows (working s) (__tablename__ model)))), s).
Proof.
  intros Hname Hc Hattr Hf.
  destruct (list_statement_ordered model name c rest descending skip limit
              Hname Hc Hattr) as (Hfrom & Hj & Hw & Hord & Hoff & Hlim).
  unfold list_async, try_except.
  unfold mbind, mret, M_bind, M_ret.
  rewrite execute_healthy by done.
  rewrite run_select_single_table by done.
  rewrite Hoff, Hlim. do 3 f_equal.
  rewrite (sort_by_ext _ (key_cmp descending name))
    by (intros r1 r2; by apply (row_cmp_key_cmp _ model)).
  f_equal. unfold rows_matching. rewrite Hw, Hfrom.
  apply forallb_filter_id. by apply forallb_forall.
Qed.

(** C8 (as amended).  [s1] and [s2] are the session at the first and at the
    second call: they hold the same rows, which the database may scan in a
    different order.  For a field of the model, ascending or descending, a
    page size [N >= 1] and a healthy connection, when no two different rows
    carry the same value in that field, the pages [list(skip=0, limit=N)]
    and [list(skip=N, limit=N)] are the first and the second run of [N] rows
    of one ordering of the rows: together they are its first [2N] rows, in
    order. *)
Theorem list_async_pages_partition (model : Model) (name : string)
    (c : Ascii.ascii) (rest : string) (descending : bool) (N : nat)
    (s1 s2 : Session) :
  name = String c rest ->
  c <> Ascii.ascii_of_nat 45 ->
  hasattr model name = true ->
  1 <= N ->
  faults s1 = [] ->
  faults s2 = [] ->
  let rows1 := table_rows (working s1) (__tablename__ model) in
  let rows2 := table_rows (working s2) (__tablename__ model) in
  rows1 ≡ₚ rows2 ->
  no_ties name rows1 ->
  let arg := Some (if descending then String (Ascii.ascii_of_nat 45) name else name) in
  let ordered := sort_by (key_cmp descending name) rows1 in
  list_async ilike_match trgm_similarity model 0 (Some N) arg s1
  = (Ok (take N ordered), s1)
  /\ list_async ilike_match trgm_similarity model N (Some N) arg s2
     = (Ok (take N (drop N ordered)), s2)
  /\ take N ordered ++ take N (drop N ordered) = take (N + N) ordered
  /\ ordered ≡ₚ rows1
  /\ StronglySorted (cmp_le (key_cmp descending name)) ordered.
Proof.
  intros Hname Hc Hattr HN Hf1 Hf2 rows1 rows2 Hperm Hties arg ordered.
  destruct N as [|n]; [lia|]. split_and!.
  - unfold arg. by rewrite (list_async_ordered model name c rest).
  - unfold arg. rewrite (list_async_ordered model name c rest) by done.
    fold rows2.
    replace (sort_by (key_cmp descending name) rows2) with ordered; [done|].
    apply sort_by_unique;
      [apply key_cmp_antisym|apply key_cmp_le_trans|done|by apply key_cmp_no_ties].
  - apply take_take_drop.
  - apply sort_by_perm.
  - apply sort_by_sorted; [apply key_cmp_antisym|apply key_cmp_le_trans].
Qed.

End Pagination.

(** ** The properties on the [user] table *)

Import BaseRepository.

(** C10 with two users named Kim. *)
Lemma find_by_async_multiple_matches_absent_witness :
  2 <= length (List.filter (accepts User [("name", SText (text "Kim"))])
                 (table_rows (working (user_session [kim; kim2; lee] [])) "user"))
  /\ exists s',
       find_by_async no_ilike no_similarity User [("name", SText (text "Kim"))]
         (user_session [kim; kim2; lee] [])
       = (Ok None, s')
       /\ working s' = working (user_session [kim; kim2; lee] [])
       /\ committed s' = committed (user_session [kim; kim2; lee] []).
Proof.
  split; [vm_compute; lia|].
  apply (find_by_async_multiple_matches_absent no_ilike no_similarity User
           [("name", SText (text "Kim"))] (user_session [kim; kim2; lee] [])).
  vm_compute. lia.
Defined.

(** C4 with [order_by="nickname"], which [User] does not have. *)
Lemma filter_by_async_unknown_order_by_raises_witness :
  filter_by_async no_ilike no_similarity User 0 (Some 10) (Some "nickname") false []
    (user_session [kim; lee] [])
  = (Raise (AttributeError "type object 'User' has no attribute 'nickname'"),
     user_session [kim; lee] []).
Proof.
  apply (filter_by_async_unknown_order_by_raises no_ilike no_similarity User 0
           (Some 10) "nickname" false [] (user_session [kim; lee] [])).
  - discriminate.
  - reflexivity.
Defined.

(** Decides a closed decidable proposition by evaluation. *)
Ltac by_evaluation := refine (bool_decide_unpack _ _); vm_compute; exact I.

(** C5: an id nobody has, and a rename of [usr_1] that also passes a key
    the model does not know. *)
Lemma update_async_partial_fields_witness :
  (exists s',
     update_async no_ilike no_similarity User (SText (text "usr_9"))
       [("name", SText (text "Park"))] (user_session [kim; lee] [])
     = (Ok None, s')
     /\ committed s' = committed (user_session [kim; lee] []))
  /\ (exists entity s',
        update_async no_ilike no_similarity User (SText (text "usr_1"))
          [("name", SText (text "Park")); ("nickname", SText (text "P"))]
          (user_session [kim; lee] [])
        = (Ok (Some entity), s')
        /\ entity !! "name" = Some (SText (text "Park"))
        /\ entity !! "nickname" = None
        /\ entity !! "created_at" = Some (STime 10)
        /\ entity !! "updated_at" = Some (STime 100)
        /\ identity <$> table_rows (committed s') "user"
           = [SText (text "usr_1"); SText (text "usr_3")]).
Proof.
  split.
  - destruct (update_async_partial_fields no_ilike no_similarity User
                (SText (text "usr_9")) [("name", SText (text "Park"))]
                (user_session [kim; lee] []) eq_refl) as [Habsent _].
    destruct (Habsent eq_refl) as (s' & Hrun & _ & Hc). by exists s'.
  - destruct (update_async_partial_fields no_ilike no_similarity User
                (SText (text "usr_1"))
                [("name", SText (text "Park")); ("nickname", SText (text "P"))]
                (user_session [kim; lee] []) eq_refl) as [_ Hfound].
    destruct (Hfound kim eq_refl eq_refl) as (Hfields & s' & Hrun & Hc & _);
      [by_evaluation..|].
    eexists _, s'. split; [exact Hrun|].
    rewrite !Hfields, Hc. vm_compute. split_and!; reflexivity.
Defined.

(** C6: a batch whose second row repeats the id of [kim], and a batch
    whose second row gets a generated id. *)
Lemma bulk_create_async_all_or_nothing_witness :
  (exists s',
     bulk_create_async User
       [[("id", SText (text "usr_7")); ("name", SText (text "Park"))];
        [("id", SText (text "usr_1")); ("name", SText (text "Choi"))]]
       (user_session [kim; lee] [])
     = (Raise (SQLAlchemyError IntegrityError), s')
     /\ committed s' = committed (user_session [kim; lee] [])
     /\ working s' = committed (user_session [kim; lee] []))
  /\ (exists s',
        bulk_create_async User
          [[("id", SText (text "usr_7")); ("name", SText (text "Park"))];
           [("name", SText (text "Choi"))]]
          (user_session [kim; lee] [])
        = (Ok [construct User [("id", SText (text "usr_7")); ("name", SText (text "Park"))] 100;
               construct User [("name", SText (text "Choi"))] 101],
           s')
        /\ identity <$> table_rows (committed s') "user"
           = [SText (text "usr_1"); SText (text "usr_3");
              SText (text "usr_7"); SText (text "usr_1100101")]).
Proof.
  split.
  - destruct (bulk_create_async_all_or_nothing User
       [[("id", SText (text "usr_7")); ("name", SText (text "Park"))];
        [("id", SText (text "usr_1")); ("name", SText (text "Choi"))]]
       (user_session [kim; lee] [])) as (_ & Hviolation & _).
    apply Hviolation; [reflexivity|].
    refine (proj1 (bool_decide_eq_false _) _). vm_compute. reflexivity.
  - destruct (bulk_create_async_all_or_nothing User
       [[("id", SText (text "usr_7")); ("name", SText (text "Park"))];
        [("name", SText (text "Choi"))]]
       (user_session [kim; lee] [])) as (_ & _ & Hsuccess).
    destruct Hsuccess as (s' & Hrun & Hrows & _); [reflexivity|by_evaluation..|].
    exists s'. split; [exact Hrun|]. rewrite Hrows. vm_compute. reflexivity.
Defined.

(** A failure after the commit, in the refresh of the created entities, is
    raised as well; by then the batch is in the table. *)
Example bulk_create_async_refresh_failure :
  (bulk_create_async User [[("id", SText (text "usr_7"))]]
     (user_session [kim] [None; Some OperationalError])).1
  = Raise (SQLAlchemyError OperationalError)
  /\ identity <$> table_rows
        (committed (bulk_create_async User [[("id", SText (text "usr_7"))]]
                      (user_session [kim] [None; Some OperationalError])).2) "user"
     = [SText (text "usr_1"); SText (text "usr_7")].
Proof. split; vm_compute; reflexivity. Qed.

(** C7: [usr_1] is in the table, the lookup fails, and [update_async] and
    [delete_async] answer as for a missing row; [create_async] in the same
    session raises the failure. *)
Lemma update_delete_swallow_lookup_failure_witness :
  rows_with_id (SText (text "usr_1"))
    (table_rows (working (user_session [kim] [Some OperationalError])) "user")
  = [kim]
  /\ (update_async no_ilike no_similarity User (SText (text "usr_1"))
        [("name", SText (text "Park"))]
        (user_session [kim] [Some OperationalError])).1
     = Ok None
  /\ (delete_async no_ilike no_similarity User (SText (text "usr_1"))
        (user_session [kim] [Some OperationalError])).1
     = Ok false
  /\ (create_async User [("id", SText (text "usr_2"))]
        (user_session [kim] [Some OperationalError])).1
     = Raise (SQLAlchemyError OperationalError).
Proof.
  destruct (update_delete_swallow_lookup_failure no_ilike no_similarity User
              (user_session [kim] [Some OperationalError]) OperationalError []
              eq_refl eq_refl) as (Hupdate & Hdelete & Hcreate).
  split_and!.
  - reflexivity.
  - by rewrite Hupdate.
  - by rewrite Hdelete.
  - destruct (Hcreate [("id", SText (text "usr_2"))]) as (s' & -> & _). reflexivity.
Defined.

(** With a healthy lookup the failure of the commit is raised after
    rollback. *)
Example update_async_commit_failure :
  (update_async no_ilike no_similarity User (SText (text "usr_1"))
     [("name", SText (text "Park"))]
     (user_session [kim] [None; Some OperationalError])).1
  = Raise (SQLAlchemyError OperationalError).
Proof. vm_compute. reflexivity. Qed.

(** The claim of C8 fails when rows tie on the sort key: both sessions hold
    the two users named Kim, scanned in opposite orders; the first page and
    the second page both return [usr_1], and [usr_2] is on neither. *)
Lemma list_async_pages_overlap_on_ties :
  table_rows (working (user_session [kim; kim2] [])) "user"
    ≡ₚ table_rows (working (user_session [kim2; kim] [])) "user"
  /\ returned_ids (list_async no_ilike no_similarity User 0 (Some 1) (Some "name")
                     (user_session [kim; kim2] []))
     = Some [SText (text "usr_1")]
  /\ returned_ids (list_async no_ilike no_similarity User 1 (Some 1) (Some "name")
                     (user_session [kim2; kim] []))
     = Some [SText (text "usr_1")].
Proof.
  split_and!; [|vm_compute; reflexivity..].
  change ([kim; kim2] ≡ₚ [kim2; kim]). apply Permutation_swap.
Qed.

(** A page size of zero is read as "no limit". *)
Example list_async_limit_zero :
  returned_ids (list_async no_ilike no_similarity User 0 (Some 0) (Some "created_at")
                  (user_session [kim; kim2; lee] []))
  = Some [SText (text "usr_1"); SText (text "usr_2"); SText (text "usr_3")].
Proof. vm_compute. reflexivity. Qed.

(** C8 on [created_at], which differs from row to row, newest first, with
    the three users scanned in two different orders. *)
Lemma list_async_pages_partition_witness :
  returned_ids (list_async no_ilike no_similarity User 0 (Some 1) (Some "-created_at")
                  (user_session [kim; kim2; lee] []))
  = Some [SText (text "usr_3")]
  /\ returned_ids (list_async no_ilike no_similarity User 1 (Some 1) (Some "-created_at")
                     (user_session [lee; kim; kim2] []))
     = Some [SText (text "usr_2")].
Proof.
  destruct (list_async_pages_partition no_ilike no_similarity User "created_at"
              (Ascii.ascii_of_nat 99) "reated_at" true 1
              (user_session [kim; kim2; lee] []) (user_session [lee; kim; kim2] []))
    as (Hpage1 & Hpage2 & _).
  - reflexivity.
  - discriminate.
  - reflexivity.
  - lia.
  - reflexivity.
  - reflexivity.
  - change ([kim; kim2] ++ [lee] ≡ₚ [lee] ++ [kim; kim2]). apply Permutation_app_comm.
  - intros r1 r2 H1 H2.
    change (r1 ∈ [kim; kim2; lee]) in H1. change (r2 ∈ [kim; kim2; lee]) in H2.
    rewrite !elem_of_cons, elem_of_nil in H1, H2.
    destruct H1 as [->|[->|[->|[]]]], H2 as [->|[->|[->|[]]]];
      lazymatch goal with
      | |- _ -> ?r = ?r => intros _; exact eq_refl
      | |- _ => intros Htie; exfalso; revert Htie; vm_compute; discriminate
      end.
  - cbn zeta in Hpage1, Hpage2. split.
    + refine (eq_trans (f_equal returned_ids Hpage1) _). vm_compute. reflexivity.
    + refine (eq_trans (f_equal returned_ids Hpage2) _). vm_compute. reflexivity.
Defined.


(** * Further properties *)

(** ** Trimming *)








Section SearchSemantics.
Variable ilike_match : pystr -> pystr -> bool.
Variable trgm_similarity : pystr -> pystr -> Q.


End SearchSemantics.



(** ** Filters on a statement *)


Section FilterSemantics.
Variable ilike_match : pystr -> pystr -> bool.
Variable trgm_similarity : pystr -> pystr -> Q.

Local Abbreviation eval' := (eval ilike_match trgm_similarity).
Local Abbreviation holds' := (holds ilike_match trgm_similarity).
Local Abbreviation matching' := (matching ilike_match trgm_similarity).
Local Abbreviation run_select' := (run_select ilike_match trgm_similarity).















End FilterSemantics.



(** ** Locale fields *)


